(** * Meili photo importer

    A shallow embedding of [photo_importer.py] and the properties of its
    import pipeline: classification by extension, planning of the
    destination directory and file names, the serial counter, the reject
    paths, dry-run and the [--get-serial] short circuit.

    Modelling conventions.
    - Python [str] values are Rocq [string]s read as ASCII text: on them
      [str.lower] maps [A-Z] to [a-z], the regular-expression class [\d] is
      [0-9] and [\s] is the ASCII white space of [str.isspace].
    - Python [int] is [Z].
    - The filesystem is a finite map from path strings to nodes; two paths
      denote the same node exactly when they are the same string. A new
      entry can only be made in a directory: [os.mkdir] and [os.rename]
      look at the parent of the path they write, and fail when it is missing
      or is a regular file.
    - [strftime] is that of CPython on glibc: [%Y] prints the year as a
      plain decimal number, without leading zeros.
    - Module-level globals ([serial], [reject_count], [allpics]) and the
      outside world (filesystem, pickle file, console, the programs that
      can be started and the processes spawned) are fields of one state
      record threaded through a state-and-exception monad. *)

From Stdlib Require Import ZArith String Ascii DecimalString DecimalPos DecimalZ Lia.
From stdpp Require Import gmap strings list fin_maps.

Local Open Scope Z_scope.

(** ** Python strings *)

Module PyStr.

(** [c.lower()] for one ASCII character. *)
Definition lower_ascii (c : ascii) : ascii :=
  let n := nat_of_ascii c in
  if ((65 <=? n) && (n <=? 90))%nat then ascii_of_nat (n + 32) else c.

(** [s.lower()] *)
Fixpoint lower (s : string) : string :=
  match s with
  | EmptyString => EmptyString
  | String c s' => String (lower_ascii c) (lower s')
  end.

(** [s.rfind(c)]: index of the last occurrence of [c], [-1] when absent.
    [i] is the index of the head of [s], [acc] the last hit so far. *)
Fixpoint rfind_from (c : ascii) (s : string) (i acc : Z) : Z :=
  match s with
  | EmptyString => acc
  | String a s' => rfind_from c s' (i + 1) (if Ascii.eqb a c then i else acc)
  end.

Definition rfind (s : string) (c : ascii) : Z := rfind_from c s 0 (-1).

Fixpoint take (n : nat) (s : string) : string :=
  match n, s with
  | S n', String a s' => String a (take n' s')
  | _, _ => EmptyString
  end.

Fixpoint drop (n : nat) (s : string) : string :=
  match n, s with
  | S n', String _ s' => drop n' s'
  | _, _ => s
  end.

(** The slices [s[:i]], [s[i:]] and [s[i:j]] for indices [0 <= i <= j]. *)
Definition slice_to (s : string) (i : Z) : string := take (Z.to_nat i) s.
Definition slice_from (s : string) (i : Z) : string := drop (Z.to_nat i) s.
Definition slice (s : string) (i j : Z) : string :=
  take (Z.to_nat (j - i)) (drop (Z.to_nat i) s).

(** [s.startswith(c)] and [s.endswith(c)] for a one-character [c]. *)
Definition startswith (s : string) (c : ascii) : bool :=
  match s with
  | String a _ => Ascii.eqb a c
  | EmptyString => false
  end.

Fixpoint endswith (s : string) (c : ascii) : bool :=
  match s with
  | EmptyString => false
  | String a EmptyString => Ascii.eqb a c
  | String _ s' => endswith s' c
  end.

(** [s.rstrip(c)] for a one-character [c]. *)
Fixpoint rstrip (s : string) (c : ascii) : string :=
  match s with
  | EmptyString => EmptyString
  | String a s' =>
      match rstrip s' c with
      | EmptyString => if Ascii.eqb a c then EmptyString else String a EmptyString
      | r => String a r
      end
  end.

(** [all(ch == c for ch in s)] *)
Fixpoint all_eq (s : string) (c : ascii) : bool :=
  match s with
  | EmptyString => true
  | String a s' => Ascii.eqb a c && all_eq s' c
  end.

(** [str(n)], also the rendering of [n] inside an f-string. *)
Definition of_int (n : Z) : string := NilZero.string_of_int (Z.to_int n).

(** [s.rjust(w, '0')]: the zero padding of the [%0wd] fields. *)
Definition zfill (w : nat) (s : string) : string :=
  String.concat "" (replicate (w - String.length s) "0") +:+ s.

End PyStr.

(** ** posixpath *)

Module PosixPath.
Import PyStr.

Definition sep : ascii := "/"%char.
Definition extsep : ascii := "."%char.

(** [genericpath._splitext]: the extension starts at the last dot of the
    last component, unless that component consists of leading dots only
    up to there. *)
Definition splitext (p : string) : string * string :=
  let sepIndex := rfind p sep in
  let dotIndex := rfind p extsep in
  if (sepIndex <? dotIndex)%Z
     && negb (all_eq (slice p (sepIndex + 1) dotIndex) extsep)
  then (slice_to p dotIndex, slice_from p dotIndex)
  else (p, EmptyString).

(** [posixpath.basename] *)
Definition basename (p : string) : string := slice_from p (rfind p sep + 1).

(** [posixpath.split] *)
Definition split (p : string) : string * string :=
  let i := rfind p sep + 1 in
  let head := slice_to p i in
  let tail := slice_from p i in
  (if negb (String.eqb head EmptyString) && negb (all_eq head sep)
   then rstrip head sep else head, tail).

(** One step of [posixpath.join]: an absolute component restarts the
    path, otherwise a separator is inserted unless one is already there. *)
Definition join2 (path b : string) : string :=
  if startswith b sep then b
  else if String.eqb path EmptyString || endswith path sep then path +:+ b
  else path +:+ "/" +:+ b.

(** [posixpath.join(a, *p)] *)
Definition join (a : string) (p : list string) : string := fold_left join2 p a.

End PosixPath.

(** ** datetime: [strptime] and [strftime] *)

Module PyDatetime.
Import PyStr.

Record datetime := mk_datetime {
  year : Z; month : Z; day : Z; hour : Z; minute : Z; second : Z
}.

(** *** The regular expressions of [_strptime.TimeRE]

    A backtracking matcher in the list-of-successes style: the results
    are listed in the order in which Python's [re] tries them, so the head
    of the list is what [re.match] returns. *)

Inductive regex :=
| Lit (c : ascii)                 (* a literal character *)
| Rng (lo hi : ascii)             (* [lo-hi] *)
| Spaces                          (* \s+ *)
| Seq (r1 r2 : regex)             (* r1 r2 *)
| Alt (r1 r2 : regex)             (* r1|r2 *)
| Group (name : string) (r : regex). (* (?P<name>r) *)

Definition is_digit (c : ascii) : bool :=
  let n := nat_of_ascii c in ((48 <=? n) && (n <=? 57))%nat.

(** [c.isspace()]: TAB, LF, VT, FF, CR, the separators FS, GS, RS, US,
    and the blank. *)
Definition is_space (c : ascii) : bool :=
  let n := nat_of_ascii c in
  (((9 <=? n) && (n <=? 13)) || ((28 <=? n) && (n <=? 32)))%nat.

(** What is left after one or more white-space characters, longest run
    first. *)
Fixpoint after_spaces (s : string) : list string :=
  match s with
  | String c s' => if is_space c then after_spaces s' ++ [s'] else []
  | EmptyString => []
  end.

Definition groups := list (string * string).

Fixpoint rmatch (r : regex) (s : string) : list (groups * string) :=
  match r with
  | Lit c =>
      match s with
      | String a s' => if Ascii.eqb a c then [([], s')] else []
      | EmptyString => []
      end
  | Rng lo hi =>
      match s with
      | String a s' =>
          if ((nat_of_ascii lo <=? nat_of_ascii a)
              && (nat_of_ascii a <=? nat_of_ascii hi))%nat
          then [([], s')] else []
      | EmptyString => []
      end
  | Spaces => map (fun rest => ([], rest)) (after_spaces s)
  | Seq r1 r2 =>
      flat_map (fun m1 : groups * string =>
                  map (fun m2 : groups * string => (m1.1 ++ m2.1, m2.2))
                      (rmatch r2 m1.2))
               (rmatch r1 s)
  | Alt r1 r2 => rmatch r1 s ++ rmatch r2 s
  | Group name r1 =>
      map (fun m : groups * string =>
             ((name, take (String.length s - String.length m.2) s) :: m.1, m.2))
          (rmatch r1 s)
  end.

Definition d := Rng "0" "9".
Definition seqs (rs : list regex) (r : regex) : regex := fold_right Seq r rs.
Definition alts (rs : list regex) (r : regex) : regex := fold_right Alt r rs.

(** ['Y': r"(?P<Y>\d\d\d\d)"] *)
Definition re_Y := Group "Y" (seqs [d; d; d] d).
(** ['m': r"(?P<m>1[0-2]|0[1-9]|[1-9])"] *)
Definition re_m :=
  Group "m" (alts [Seq (Lit "1") (Rng "0" "2"); Seq (Lit "0") (Rng "1" "9")]
                  (Rng "1" "9")).
(** ['d': r"(?P<d>3[0-1]|[1-2]\d|0[1-9]|[1-9]| [1-9])"] *)
Definition re_d :=
  Group "d" (alts [Seq (Lit "3") (Rng "0" "1"); Seq (Rng "1" "2") d;
                   Seq (Lit "0") (Rng "1" "9"); Rng "1" "9"]
                  (Seq (Lit " ") (Rng "1" "9"))).
(** ['H': r"(?P<H>2[0-3]|[0-1]\d|\d)"] *)
Definition re_H :=
  Group "H" (alts [Seq (Lit "2") (Rng "0" "3"); Seq (Rng "0" "1") d] d).
(** ['M': r"(?P<M>[0-5]\d|\d)"] *)
Definition re_M := Group "M" (Alt (Seq (Rng "0" "5") d) d).
(** ['S': r"(?P<S>6[0-1]|[0-5]\d|\d)"] *)
Definition re_S :=
  Group "S" (alts [Seq (Lit "6") (Rng "0" "1"); Seq (Rng "0" "5") d] d).

(** The pattern compiled from ['%Y:%m:%d %H:%M:%S']; the blank of the
    format becomes [\s+]. *)
Definition exif_format_regex : regex :=
  seqs [re_Y; Lit ":"; re_m; Lit ":"; re_d; Spaces; re_H; Lit ":"; re_M; Lit ":"]
       re_S.

(** [int(s)] on the text of a group: optional surrounding blanks, then
    decimal digits. *)
Fixpoint int_of_digits (s : string) (acc : Z) : Z :=
  match s with
  | String c s' =>
      if is_digit c
      then int_of_digits s' (10 * acc + Z.of_nat (nat_of_ascii c - 48))
      else int_of_digits s' acc
  | EmptyString => acc
  end.

Definition int (s : string) : Z := int_of_digits s 0.

Definition group (g : groups) (name : string) : string :=
  match List.find (fun kv : string * string => String.eqb kv.1 name) g with
  | Some (_, v) => v
  | None => EmptyString
  end.

Definition is_leap (y : Z) : bool :=
  ((y mod 4 =? 0) && (negb (y mod 100 =? 0) || (y mod 400 =? 0)))%Z.

Definition days_in_month (y m : Z) : Z :=
  if (m =? 2)%Z then (if is_leap y then 29 else 28)
  else if ((m =? 4) || (m =? 6) || (m =? 9) || (m =? 11))%Z then 30
  else 31.

(** The range checks of the [datetime] constructor. *)
Definition valid (t : datetime) : bool :=
  ((1 <=? year t) && (year t <=? 9999)
   && (1 <=? month t) && (month t <=? 12)
   && (1 <=? day t) && (day t <=? days_in_month (year t) (month t))
   && (0 <=? hour t) && (hour t <=? 23)
   && (0 <=? minute t) && (minute t <=? 59)
   && (0 <=? second t) && (second t <=? 59))%Z.

(** [datetime.strptime(s, '%Y:%m:%d %H:%M:%S')]; [None] stands for the
    [ValueError] raised when the text does not match, when text is left
    over, or when the fields are no calendar date and time. *)
Definition strptime_exif (s : string) : option datetime :=
  match rmatch exif_format_regex s with
  | [] => None
  | (g, rest) :: _ =>
      if negb (String.eqb rest EmptyString) then None
      else
        let t := {| year := int (group g "Y"); month := int (group g "m");
                    day := int (group g "d"); hour := int (group g "H");
                    minute := int (group g "M"); second := int (group g "S") |} in
        if valid t then Some t else None
  end.

(** One directive of [strftime]. [%Y] is the year as a decimal number,
    which the C library does not pad: [999] for the year 999. The other
    fields are zero-padded to two digits. *)
Definition directive (t : datetime) (c : ascii) : string :=
  if Ascii.eqb c "Y" then of_int (year t)
  else if Ascii.eqb c "m" then zfill 2 (of_int (month t))
  else if Ascii.eqb c "d" then zfill 2 (of_int (day t))
  else if Ascii.eqb c "H" then zfill 2 (of_int (hour t))
  else if Ascii.eqb c "M" then zfill 2 (of_int (minute t))
  else if Ascii.eqb c "S" then zfill 2 (of_int (second t))
  else String "%" (String c EmptyString).

(** [t.strftime(fmt)] *)
Fixpoint strftime (t : datetime) (fmt : string) : string :=
  match fmt with
  | String "%" (String c fmt') => directive t c +:+ strftime t fmt'
  | String c fmt' => String c (strftime t fmt')
  | EmptyString => EmptyString
  end.

End PyDatetime.

(** ** The outside world and the program state *)

(** What reading a file's EXIF data gives: the file cannot be read, or it
    is read and has, or lacks, an [EXIF DateTimeOriginal] tag. *)
Inductive content :=
| Unreadable
| Image (date_tag : option string).

Inductive node :=
| Dir
| File (c : content).

Inductive level := DEBUG | INFO | WARNING | ERROR | CRITICAL.

Inductive exn :=
| FileNotFoundError
| IsADirectoryError
| NotADirectoryError
| PermissionError
| FileExistsError
| ShutilError
| KeyError
| ValueError
| TypeError
| IndexError
| SystemExit (code : Z).

(** [SystemExit] derives from [BaseException] only, so [except Exception]
    lets it through. *)
Definition is_Exception (e : exn) : bool :=
  match e with
  | SystemExit _ => false
  | _ => true
  end.

(** The command line: [--dryrun], [--debug], [--get-serial]. *)
Record Args := { dryrun : bool; debug : bool; get_serial : bool }.

(** The [PATH] section of [importer.ini]; each value is the text of the
    [pathlib.Path] built from it. *)
Record Config := {
  p_inbox : string;
  pre_process : string;
  raw_path : string;
  reject_path : string;
  video_path : string
}.

Record State := {
  (* module-level globals *)
  serial : Z;
  reject_count : Z;
  allpics : list string;
  (* the world *)
  fs : gmap string node;              (* media files and directories *)
  walk_files : string → list string;  (* os.walk(top): the joined file paths, in its order *)
  serial_pk : option Z;               (* serial.pk; None when missing or unreadable *)
  config_file : string;               (* where importer.ini is looked for *)
  importer_ini : option Config;       (* importer.ini; None when missing *)
  console : list (level * string);    (* log records, oldest first *)
  commands : list string;             (* the programs that can be started by name *)
  spawned : list (list string)        (* argument vectors of subprocess.run, oldest first *)
}.

Definition set_serial (n : Z) (st : State) : State :=
  {| serial := n; reject_count := reject_count st; allpics := allpics st;
     fs := fs st; walk_files := walk_files st; serial_pk := serial_pk st;
     config_file := config_file st; importer_ini := importer_ini st;
     console := console st; commands := commands st; spawned := spawned st |}.

Definition set_reject_count (n : Z) (st : State) : State :=
  {| serial := serial st; reject_count := n; allpics := allpics st;
     fs := fs st; walk_files := walk_files st; serial_pk := serial_pk st;
     config_file := config_file st; importer_ini := importer_ini st;
     console := console st; commands := commands st; spawned := spawned st |}.

Definition set_allpics (l : list string) (st : State) : State :=
  {| serial := serial st; reject_count := reject_count st; allpics := l;
     fs := fs st; walk_files := walk_files st; serial_pk := serial_pk st;
     config_file := config_file st; importer_ini := importer_ini st;
     console := console st; commands := commands st; spawned := spawned st |}.

Definition set_fs (m : gmap string node) (st : State) : State :=
  {| serial := serial st; reject_count := reject_count st; allpics := allpics st;
     fs := m; walk_files := walk_files st; serial_pk := serial_pk st;
     config_file := config_file st; importer_ini := importer_ini st;
     console := console st; commands := commands st; spawned := spawned st |}.

Definition set_serial_pk (p : option Z) (st : State) : State :=
  {| serial := serial st; reject_count := reject_count st; allpics := allpics st;
     fs := fs st; walk_files := walk_files st; serial_pk := p;
     config_file := config_file st; importer_ini := importer_ini st;
     console := console st; commands := commands st; spawned := spawned st |}.

Definition set_console (l : list (level * string)) (st : State) : State :=
  {| serial := serial st; reject_count := reject_count st; allpics := allpics st;
     fs := fs st; walk_files := walk_files st; serial_pk := serial_pk st;
     config_file := config_file st; importer_ini := importer_ini st;
     console := l; commands := commands st; spawned := spawned st |}.

Definition set_spawned (l : list (list string)) (st : State) : State :=
  {| serial := serial st; reject_count := reject_count st; allpics := allpics st;
     fs := fs st; walk_files := walk_files st; serial_pk := serial_pk st;
     config_file := config_file st; importer_ini := importer_ini st;
     console := console st; commands := commands st; spawned := l |}.

(** ** A state-and-exception monad

    A computation returns a value or raises; either way it leaves a state
    behind, the one an exception handler or the interpreter at exit sees. *)

Inductive outcome (A : Type) :=
| Ok (a : A)
| Raise (e : exn).
Arguments Ok {A} a.
Arguments Raise {A} e.

Definition M (A : Type) : Type := State → outcome A * State.

Definition ret {A} (a : A) : M A := fun st => (Ok a, st).

Definition bind {A B} (m : M A) (k : A → M B) : M B :=
  fun st =>
    match m st with
    | (Ok a, st') => k a st'
    | (Raise e, st') => (Raise e, st')
    end.

Definition raise {A} (e : exn) : M A := fun st => (Raise e, st).
Definition gets {A} (f : State → A) : M A := fun st => (Ok (f st), st).
Definition modify (f : State → State) : M unit := fun st => (Ok tt, f st).

(** [try: m  except <those e with catches e>: handler] *)
Definition try_except {A} (m : M A) (catches : exn → bool) (handler : M A) : M A :=
  fun st =>
    match m st with
    | (Raise e, st') => if catches e then handler st' else (Raise e, st')
    | r => r
    end.

Notation "'let*' x ':=' m 'in' k" := (bind m (fun x => k))
  (at level 10, x name, m at level 100, k at level 200, only parsing).
Notation "m ';;;' k" := (bind m (fun _ => k))
  (at level 100, k at level 200, right associativity, only parsing).

Definition when (b : bool) (m : M unit) : M unit := if b then m else ret tt.

(** [for x in l: body x] *)
Fixpoint for_each {A} (l : list A) (body : A → M unit) : M unit :=
  match l with
  | [] => ret tt
  | x :: l' => body x ;;; for_each l' body
  end.

(** ** logging, os, shutil, subprocess *)

Definition log (lvl : level) (msg : string) : M unit :=
  modify (fun st => set_console (console st ++ [(lvl, msg)]) st).

Module Os.
Import PyStr.

(** [os.path.exists] *)
Definition path_exists (p : string) : M bool :=
  gets (fun st => match fs st !! p with Some _ => true | None => false end).

(** [os.path.isdir] *)
Definition path_isdir (p : string) : M bool :=
  gets (fun st => match fs st !! p with Some Dir => true | _ => false end).

(** The first lines of [os.makedirs]: [head, tail = path.split(name)],
    split once more when [tail] is empty. [head] is the directory that
    holds the entry [name], whether or not [name] ends with separators. *)
Definition head_tail (name : string) : string * string :=
  let '(head, tail) := PosixPath.split name in
  if String.eqb tail "" then PosixPath.split head else (head, tail).

(** Going up from [p] through names that are missing, one comes to a
    regular file: the path leads through something that is no directory. *)
Fixpoint below_file (fuel : nat) (m : gmap string node) (p : string) : bool :=
  let parent := (head_tail p).1 in
  if String.eqb parent "" then false
  else
    match m !! parent with
    | Some (File _) => true
    | Some Dir => false
    | None =>
        match fuel with
        | O => false
        | S fuel' => below_file fuel' m parent
        end
    end.

(** The error of a system call on a path [p] that is not there: [ENOTDIR]
    when the path leads through a regular file, [ENOENT] otherwise. *)
Definition not_found {A} (p : string) : M A :=
  fun st =>
    (Raise (if below_file (String.length p) (fs st) p
            then NotADirectoryError else FileNotFoundError), st).

(** What the system calls that make the entry [p] ask of its parent: it
    must be a directory. A bare name lies in the current directory. *)
Definition parent_check (p : string) : M unit :=
  let parent := (head_tail p).1 in
  if String.eqb parent "" then ret tt
  else
    let* n := gets (fun st => fs st !! parent) in
    match n with
    | Some Dir => ret tt
    | _ => not_found p
    end.

(** [os.mkdir] *)
Definition mkdir (p : string) : M unit :=
  let* ex := path_exists p in
  if ex then raise FileExistsError
  else
    parent_check p ;;;
    modify (fun st => set_fs (<[p := Dir]> (fs st)) st).

Definition is_FileExistsError (e : exn) : bool :=
  match e with
  | FileExistsError => true
  | _ => false
  end.

(** [os.makedirs(name)]: the missing ancestors first, then the leaf. The
    recursion is on [head], a proper prefix of [name]; [fuel] bounds it. *)
Fixpoint makedirs_rec (fuel : nat) (name : string) : M unit :=
  let '(head, tail) := head_tail name in
  let* head_exists := path_exists head in
  if negb (String.eqb head "") && negb (String.eqb tail "") && negb head_exists
  then
    match fuel with
    | O => raise FileNotFoundError
    | S fuel' =>
        try_except (makedirs_rec fuel' head) is_FileExistsError (ret tt) ;;;
        if String.eqb tail "." then ret tt else mkdir name
    end
  else mkdir name.

Definition makedirs (name : string) : M unit :=
  makedirs_rec (String.length name) name.

(** [os.rename] of a regular file: the source must be there, the
    destination must lie in a directory and be no directory itself. *)
Definition rename (src dst : string) : M unit :=
  let* s := gets (fun st => fs st !! src) in
  match s with
  | None => not_found src
  | Some n =>
      parent_check dst ;;;
      let* d := gets (fun st => fs st !! dst) in
      match n, d with
      | File _, Some Dir => raise IsADirectoryError
      | _, _ => modify (fun st => set_fs (<[dst := n]> (delete src (fs st))) st)
      end
  end.

(** [open(path, 'rb')] followed by [exifread.process_file]: the
    [EXIF DateTimeOriginal] entry of the tags, if any. *)
Definition read_exif (path : string) : M (option string) :=
  let* n := gets (fun st => fs st !! path) in
  match n with
  | None => not_found path
  | Some Dir => raise IsADirectoryError
  | Some (File Unreadable) => raise PermissionError
  | Some (File (Image tag)) => ret tag
  end.

End Os.

(** [shutil.move(src, dst)]: into [dst] when it is a directory (refusing
    to overwrite there), else onto [dst]. *)
Definition shutil_move (src dst : string) : M unit :=
  let* dst_isdir := Os.path_isdir dst in
  if dst_isdir then
    if String.eqb src dst then Os.rename src dst
    else
      let real_dst :=
        PosixPath.join dst [PosixPath.basename (PyStr.rstrip src PosixPath.sep)] in
      let* taken := Os.path_exists real_dst in
      if taken then raise ShutilError else Os.rename src real_dst
  else Os.rename src dst.

(** [subprocess.run(args=argv)]: the program named first is started, a
    [FileNotFoundError] when there is no such program. What the child
    does, and its exit status, are not looked at. *)
Definition subprocess_run (argv : list string) : M unit :=
  match argv with
  | [] => raise IndexError
  | cmd :: _ =>
      let* found := gets (fun st => bool_decide (cmd ∈ commands st)) in
      if found then modify (fun st => set_spawned (spawned st ++ [argv]) st)
      else raise FileNotFoundError
  end.

(** [pickle.dump(n, open(serial_file, 'wb'))] *)
Definition pickle_dump (n : Z) : M unit :=
  modify (set_serial_pk (Some n)).

(** ** photo_importer.py *)

Definition valid_extensions : list string := [".tif"; ".cr2"; ".jpg"; ".jpeg"; ".png"].
Definition video_extensions : list string := [".mp4"; ".mkv"].

(** The four ways the loop of [process] treats a file. *)
Inductive FileClassification := RawPhoto | ProcessedPhoto | Video | Unsupported.

(** The branches of [process] on the lowercased extension: first the test
    against [valid_extensions] and, inside it, against [video_extensions];
    then the comparison with [".cr2"] that picks the storage root. *)
Definition classify (extension : string) : FileClassification :=
  if negb (bool_decide (extension ∈ valid_extensions)) then
    if bool_decide (extension ∈ video_extensions) then Video else Unsupported
  else if String.eqb extension ".cr2" then RawPhoto
  else ProcessedPhoto.

(** What the loop body computes for a photo before it touches anything:
    [date_taken], [new_filepath], [new_name] and [new_jname]. *)
Record ImportDecision := {
  date_taken : option PyDatetime.datetime;
  new_filepath : string;
  new_name : string;
  new_jname : string
}.

(** [exif_tags['EXIF DateTimeOriginal']] *)
Definition get_date_taken (path : string) : M string :=
  let* exif_tags := Os.read_exif path in
  match exif_tags with
  | Some exif_datetag => ret exif_datetag
  | None => raise KeyError
  end.

(** [datetime.strptime(s, '%Y:%m:%d %H:%M:%S')] *)
Definition datetime_strptime (s : string) : M PyDatetime.datetime :=
  match PyDatetime.strptime_exif s with
  | Some t => ret t
  | None => raise ValueError
  end.

(** [datetime.strftime(self, fmt)], the unbound method: a [self] that is
    [None] is a [TypeError]. *)
Definition datetime_strftime (self : option PyDatetime.datetime) (fmt : string)
  : M string :=
  match self with
  | Some t => ret (PyDatetime.strftime t fmt)
  | None => raise TypeError
  end.

Section Importer.
Variable args : Args.
Variable cfg : Config.

(** [reject(file)] *)
Definition reject (file : string) : M unit :=
  modify (fun st => set_reject_count (reject_count st + 1) st) ;;;
  let* ex := Os.path_exists (reject_path cfg) in
  when (negb ex) (Os.makedirs (reject_path cfg)) ;;;
  let file_name := PosixPath.basename file in
  if dryrun args then log INFO "ACTION: Move file to reject path"
  else shutil_move file (reject_path cfg +:+ "/" +:+ file_name).

(** [reject_video(video)] *)
Definition reject_video (video : string) : M unit :=
  modify (fun st => set_reject_count (reject_count st + 1) st) ;;;
  let* ex := Os.path_exists (video_path cfg) in
  when (negb ex) (Os.makedirs (video_path cfg)) ;;;
  let file_name := PosixPath.basename video in
  if dryrun args
  then log INFO ("ACTION: Move " +:+ video +:+ " to " +:+ video_path cfg)
  else shutil_move video (video_path cfg +:+ "/" +:+ file_name).

(** [storage_path], from the comparison of the extension with [".cr2"]. *)
Definition storage_path (extension : string) : string :=
  if String.eqb extension ".cr2" then raw_path cfg else pre_process cfg.

(** The [try] statement of [process]: the capture time and the dated
    directory, or [None] and the [nodate] directory after any
    [Exception]. *)
Definition locate (pic storage : string)
  : M (option PyDatetime.datetime * string) :=
  try_except
    (let* tag := get_date_taken pic in
     let* t := datetime_strptime tag in
     ret (Some t, PosixPath.join storage [PyDatetime.strftime t "%Y";
                                          PyDatetime.strftime t "%m"]))
    is_Exception
    (log WARNING ("Error raised on import of EXIF tag for " +:+ pic
                  +:+ "date in filename will be set to 'nodate'") ;;;
     ret (None, PosixPath.join storage ["nodate"])).

(** [new_name] and [new_jname] *)
Definition names (taken : option PyDatetime.datetime) (serial : Z)
    (extension : string) : string * string :=
  match taken with
  | Some t =>
      (PyDatetime.strftime t "%Y%m%d_%H%M%S" +:+ "_" +:+ PyStr.of_int serial
         +:+ extension,
       PyDatetime.strftime t "%Y%m%d_%H%M%S" +:+ "_" +:+ PyStr.of_int serial
         +:+ ".jpg")
  | None =>
      (PyStr.of_int serial +:+ extension, PyStr.of_int serial +:+ ".jpg")
  end.

(** The planning part of the loop body, for a photo with the lowercased
    [extension]. *)
Definition plan (pic extension : string) : M ImportDecision :=
  let* located := locate pic (storage_path extension) in
  let* s := gets serial in
  let '(name, jname) := names located.1 s extension in
  ret {| date_taken := located.1; new_filepath := located.2;
         new_name := name; new_jname := jname |}.

(** The moving part of the loop body: the destination directory, the
    move, and for a raw photo the call of darktable. *)
Definition apply (pic extension : string) (dec : ImportDecision) : M unit :=
  let* ex := Os.path_exists (new_filepath dec) in
  when (negb ex)
    (if negb (dryrun args) then Os.makedirs (new_filepath dec)
     else log INFO ("ACTION: create folder: " +:+ new_filepath dec)) ;;;
  (if negb (dryrun args)
   then shutil_move pic (PosixPath.join (new_filepath dec) [new_name dec])
   else log INFO ("ACTION: move " +:+ pic +:+ " to "
                  +:+ PosixPath.join (new_filepath dec) [new_name dec])) ;;;
  if String.eqb extension ".cr2" then
    if dryrun args then log INFO "ACTION: call dark-table and make jpeg"
    else
      let* raw_exists := Os.path_exists (raw_path cfg) in
      when (negb raw_exists) (Os.makedirs (raw_path cfg)) ;;;
      let* y := datetime_strftime (date_taken dec) "%Y" in
      subprocess_run ["darktable-cli";
                      PosixPath.join (new_filepath dec) [new_name dec];
                      PosixPath.join (pre_process cfg) [y; new_jname dec]]
  else ret tt.

(** The body of [for pic in allpics]. *)
Definition process_pic (pic : string) : M unit :=
  modify (fun st => set_serial (serial st + 1) st) ;;;
  let '(original_name, extension) := PosixPath.splitext pic in
  let extension := PyStr.lower extension in
  match classify extension with
  | Video =>
      log INFO (pic +:+ " appears to be a video: moving to " +:+ video_path cfg) ;;;
      reject_video pic
  | Unsupported =>
      log INFO (pic +:+ " does not have a valid photo extension:rejecting") ;;;
      reject pic
  | RawPhoto | ProcessedPhoto =>
      let* dec := plan pic extension in
      apply pic extension dec
  end.

(** [process()] *)
Definition process : M unit :=
  let* found := gets (fun st => walk_files st (p_inbox cfg)) in
  modify (fun st => set_allpics (allpics st ++ found) st) ;;;
  let* pics := gets allpics in
  for_each pics process_pic.

(** The [if __name__ == '__main__'] block. *)
Definition main : M unit :=
  log INFO "Welcome to Meili image_importer" ;;;
  (if get_serial args then
     (let* s := gets serial in
      log INFO ("The current serial number is: " +:+ PyStr.of_int s)) ;;;
     raise (SystemExit 0)
   else ret tt) ;;;
  process ;;;
  if negb (dryrun args) then
    let* s := gets serial in pickle_dump s
  else log INFO "ACTION: Dumping pickle".

End Importer.

(** The module-level statements before the functions: the globals, the
    serial read from the pickle file, and the configuration. *)
Definition startup : M Config :=
  modify (fun st => set_reject_count 0 (set_allpics [] st)) ;;;
  let* pk := gets serial_pk in
  match pk with
  | Some n => modify (set_serial n) ;;; log DEBUG "pickle file found"
  | None => modify (set_serial 0) ;;; log DEBUG "pickle file not found"
  end ;;;
  let* s := gets serial in
  log INFO ("serial number starting at: " +:+ PyStr.of_int s) ;;;
  let* ini := gets importer_ini in
  match ini with
  | None =>
      let* f := gets config_file in
      log CRITICAL ("Missing " +:+ f +:+ ". Please add " +:+ f) ;;;
      raise (SystemExit 1)
  | Some c => ret c
  end.

(** One invocation of the script. *)
Definition program (args : Args) : M unit :=
  let* cfg := startup in
  main args cfg.

(** ** CustomFormatter

    The console handler's formatter. A log record is seen through the
    three attributes the formats use. *)

Module Logging.

Record LogRecord := { levelno : Z; levelname : string; message : string }.

(** The escape character, written ["\33"] in the source. *)
Definition ESC : string := String (ascii_of_nat 27) "".

Definition FMT : string := "[{levelname:^9}]: {message}".

(** [self.FORMATS], keyed by the numbers of [logging.DEBUG] to
    [logging.CRITICAL]. *)
Definition FORMATS : gmap Z string :=
  <[10 := FMT]>
  (<[20 := ESC +:+ "[36m" +:+ FMT +:+ ESC +:+ "[0m"]>
  (<[30 := ESC +:+ "[33m" +:+ FMT +:+ ESC +:+ "[0m"]>
  (<[40 := ESC +:+ "[31m" +:+ FMT +:+ ESC +:+ "[0m"]>
  (<[50 := ESC +:+ "[1m" +:+ ESC +:+ "[31m" +:+ FMT +:+ ESC +:+ "[0m"]> ∅)))).

Definition spaces (n : nat) : string := String.concat "" (replicate n " ").

(** [format(s, '^w')]: centred in [w] columns, the odd blank on the
    right; longer text is left as it is. *)
Definition center (w : nat) (s : string) : string :=
  let pad := (w - String.length s)%nat in
  let left := Nat.div pad 2 in
  spaces left +:+ s +:+ spaces (pad - left).

(** The attributes of a record that a replacement field can name. *)
Definition attribute (r : LogRecord) (name : string) : option string :=
  if String.eqb name "levelname" then Some (levelname r)
  else if String.eqb name "message" then Some (message r)
  else None.

(** A replacement field [name] or [name:^w]; [None] stands for the
    [KeyError] or [ValueError] of anything else. *)
Definition replacement (r : LogRecord) (field : string) : option string :=
  let i := PyStr.rfind field ":" in
  if (i <? 0)%Z then attribute r field
  else
    match PyStr.slice_from field (i + 1) with
    | String "^" width =>
        option_map (center (Z.to_nat (PyDatetime.int width)))
                   (attribute r (PyStr.slice_to field i))
    | _ => None
    end.

(** [str.format] of a format on the record's attributes, for formats
    without doubled braces:
    [field] is the text of the replacement field being read, if any. *)
Fixpoint str_format (r : LogRecord) (fmt : string) (field : option string)
  : option string :=
  match fmt, field with
  | EmptyString, None => Some EmptyString
  | EmptyString, Some _ => None
  | String c rest, None =>
      if Ascii.eqb c "{" then str_format r rest (Some EmptyString)
      else option_map (String c) (str_format r rest None)
  | String c rest, Some f =>
      if Ascii.eqb c "}" then
        match replacement r f, str_format r rest None with
        | Some v, Some s => Some (v +:+ s)
        | _, _ => None
        end
      else str_format r rest (Some (f +:+ String c EmptyString))
  end.

(** [CustomFormatter.format(record)]: the format of the record's level,
    a [KeyError] when the level has none. *)
Definition format (r : LogRecord) : outcome string :=
  match FORMATS !! levelno r with
  | None => Raise KeyError
  | Some log_fmt =>
      match str_format r log_fmt None with
      | Some line => Ok line
      | None => Raise ValueError
      end
  end.

End Logging.

(** ** Vocabulary of the specification *)

(** [SerialCounter.load()]: the persisted serial, [0] when there is none. *)
Definition persisted (st : State) : Z := default 0 (serial_pk st).

(** [extract_capture_time(path)]: the capture time of the file at [path],
    [None] for each of the failures: the file cannot be opened or read, it
    has no [EXIF DateTimeOriginal] tag, or the tag is no
    [YYYY:MM:DD HH:MM:SS] date and time. *)
Definition extract_capture_time (st : State) (path : string)
  : option PyDatetime.datetime :=
  match fs st !! path with
  | Some (File (Image (Some tag))) => PyDatetime.strptime_exif tag
  | _ => None
  end.

(** The classification of an inbox path: by the lowercased extension. *)
Definition classify_path (pic : string) : FileClassification :=
  classify (PyStr.lower (PosixPath.splitext pic).2).

Definition is_photo (c : FileClassification) : bool :=
  match c with
  | RawPhoto | ProcessedPhoto => true
  | Video | Unsupported => false
  end.

(** Decimal digits, written out: the last digit of [n], and [n] as two and
    as four digits. *)
Definition digit (n : Z) : ascii := ascii_of_nat (48 + Z.to_nat (n mod 10)).
Definition digits2 (n : Z) : string :=
  String (digit (n / 10)) (String (digit n) "").
Definition digits4 (n : Z) : string :=
  String (digit (n / 1000)) (String (digit (n / 100)) (digits2 n)).

(** [P] holds of the [n] integers from [lo] on. *)
Fixpoint all_from (P : Z → bool) (n : nat) (lo : Z) : bool :=
  match n with
  | O => true
  | S n' => P lo && all_from P n' (lo + 1)
  end.

(** [<YYYYMMDD_HHMMSS>], with the year in four digits. *)
Definition stamp (t : PyDatetime.datetime) : string :=
  digits4 (PyDatetime.year t) +:+ digits2 (PyDatetime.month t)
  +:+ digits2 (PyDatetime.day t) +:+ "_" +:+ digits2 (PyDatetime.hour t)
  +:+ digits2 (PyDatetime.minute t) +:+ digits2 (PyDatetime.second t).

(** The year as [%Y] prints it, and the stamp with that year. *)
Definition year_text (t : PyDatetime.datetime) : string :=
  PyStr.of_int (PyDatetime.year t).

Definition printed_stamp (t : PyDatetime.datetime) : string :=
  year_text t +:+ digits2 (PyDatetime.month t)
  +:+ digits2 (PyDatetime.day t) +:+ "_" +:+ digits2 (PyDatetime.hour t)
  +:+ digits2 (PyDatetime.minute t) +:+ digits2 (PyDatetime.second t).

(** [c in s] *)
Fixpoint contains (s : string) (c : ascii) : bool :=
  match s with
  | EmptyString => false
  | String a s' => Ascii.eqb a c || contains s' c
  end.

(** The integer that a decimal numeral denotes, [None] for other text. *)
Definition decimal_value (s : string) : option Z :=
  option_map Z.of_int (NilZero.int_of_string s).

(** The part of a new name before its extension. *)
Definition stem (taken : option PyDatetime.datetime) (serial : Z) : string :=
  match taken with
  | Some t => printed_stamp t +:+ "_" +:+ PyStr.of_int serial
  | None => PyStr.of_int serial
  end.

(** The directory and the path a photo is moved to (or, under dry-run,
    would be moved to). *)
Definition photo_dir (cfg : Config) (st : State) (pic : string) : string :=
  let extension := PyStr.lower (PosixPath.splitext pic).2 in
  match extract_capture_time st pic with
  | Some t => PosixPath.join (storage_path cfg extension)
                [year_text t; digits2 (PyDatetime.month t)]
  | None => PosixPath.join (storage_path cfg extension) ["nodate"]
  end.

Definition photo_destination (cfg : Config) (st : State) (pic : string) : string :=
  let extension := PyStr.lower (PosixPath.splitext pic).2 in
  PosixPath.join (photo_dir cfg st pic)
    [stem (extract_capture_time st pic) (serial st + 1) +:+ extension].

(** [<root>/<a>/<b>] and [<root>/<a>], as plain text. *)
Definition under2 (root a b : string) : string := root +:+ "/" +:+ a +:+ "/" +:+ b.
Definition under1 (root a : string) : string := root +:+ "/" +:+ a.

(** A directory path as [str(Path(...))] gives it: not empty and, the
    root apart, without a trailing separator. *)
Definition plain_dir (root : string) : bool :=
  negb (String.eqb root "") && negb (PyStr.endswith root PosixPath.sep).

(** What [os.makedirs(p)] needs to go through: [p] is missing, and going
    up from it through names that are missing too one comes to a directory,
    or to the current directory. A directory that is already there counts
    as well: then there is nothing to make. The names on the way are proper
    names, not [.] or [..], which would be other spellings of directories
    named before. *)
Fixpoint creatable_rec (fuel : nat) (m : gmap string node) (p : string) : bool :=
  match m !! p with
  | Some Dir => true
  | Some (File _) => false
  | None =>
      let '(head, tail) := Os.head_tail p in
      if String.eqb tail "" || String.eqb tail "." || String.eqb tail ".." then false
      else if String.eqb head "" then true
      else
        match fuel with
        | O => false
        | S fuel' => creatable_rec fuel' m head
        end
  end.

Definition creatable (st : State) (p : string) : bool :=
  creatable_rec (String.length p) (fs st) p.

(** The reject directory and the video directory are there or can be
    made. *)
Definition reject_dirs_creatable (cfg : Config) (st : State) : bool :=
  creatable st (reject_path cfg) && creatable st (video_path cfg).

(** The filesystem of [st'] is that of [st] with, possibly, directories
    added where nothing was. *)
Definition fs_grows (st st' : State) : Prop :=
  ∀ p, fs st' !! p = fs st !! p ∨ (fs st !! p = None ∧ fs st' !! p = Some Dir).

(** What a dry run must leave alone, read generously: the regular files,
    the pickle file and the list of spawned processes. *)
Definition dry_frame (st st' : State) : Prop :=
  spawned st' = spawned st ∧ serial_pk st' = serial_pk st ∧ fs_grows st st'.

(** [st'] differs from [st] at most by directories that were missing and
    now exist, all with paths no longer than [bound]. *)
Definition adds_dirs (bound : nat) (st st' : State) : Prop :=
  st' = set_fs (fs st') st ∧
  ∀ p, fs st' !! p = fs st !! p
       ∨ (fs st !! p = None ∧ fs st' !! p = Some Dir
          ∧ (String.length p ≤ bound)%nat).

(** [preserves R m]: whatever [m] does, and however it ends, the state it
    leaves is related by [R] to the one it started in. *)

Definition preserves {A} (R : State → State → Prop) (m : M A) : Prop :=
  ∀ st r st', m st = (r, st') → R st st'.

(** [keeps f]: the field (or view) [f] of the state is left as it was. *)
Definition keeps {A} (f : State → A) (st st' : State) : Prop := f st' = f st.

(** ** Sample worlds

    A configuration rooted at [/photos], and the world that holds the given
    files in its inbox, none of the destination directories yet, and the
    given pickle file. [os.walk] lists the files in the order given. *)

Definition sample_cfg : Config :=
  {| p_inbox := "/photos/inbox"; pre_process := "/photos/pre";
     raw_path := "/photos/raw"; reject_path := "/photos/reject";
     video_path := "/photos/video" |}.

Definition world (files : list (string * content)) (pk : option Z) : State :=
  {| serial := 0; reject_count := 0; allpics := [];
     fs := list_to_map ([("/", Dir); ("/photos", Dir); ("/photos/inbox", Dir)]
                        ++ map (fun f : string * content => (f.1, File f.2)) files);
     walk_files := fun top =>
       if String.eqb top "/photos/inbox" then map fst files else [];
     serial_pk := pk;
     config_file := "/opt/meili/importer.ini";
     importer_ini := Some sample_cfg;
     console := [];
     commands := ["darktable-cli"];
     spawned := [] |}.

Definition dry_run : Args := {| dryrun := true; debug := false; get_serial := false |}.
Definition real_run : Args := {| dryrun := false; debug := false; get_serial := false |}.


(** * Properties *)

(** ** Strings and paths *)

Lemma take_drop_length n s :
  (String.length (PyStr.take n s) + String.length (PyStr.drop n s))%nat
  = String.length s.
Proof.
  revert s; induction n as [|n IH]; intros [|a s]; simpl; try reflexivity.
  f_equal. apply IH.
Qed.

Lemma rstrip_length s c : (String.length (PyStr.rstrip s c) ≤ String.length s)%nat.
Proof.
  induction s as [|a s IH]; simpl; [lia|].
  destruct (PyStr.rstrip s c) eqn:E; simpl in *.
  - destruct (Ascii.eqb a c); simpl; lia.
  - lia.
Qed.

Lemma split_length p h t :
  PosixPath.split p = (h, t) →
  (String.length h + String.length t ≤ String.length p)%nat.
Proof.
  unfold PosixPath.split, PyStr.slice_to, PyStr.slice_from. intros E.
  inversion E; subst; clear E.
  set (i := Z.to_nat (PyStr.rfind p PosixPath.sep + 1)).
  pose proof (take_drop_length i p) as L.
  pose proof (rstrip_length (PyStr.take i p) PosixPath.sep) as R.
  destruct (negb _ && negb _); lia.
Qed.

Lemma length_nonempty s : s ≠ "" → (1 ≤ String.length s)%nat.
Proof. destruct s; [congruence | simpl; lia]. Qed.

Lemma eqb_false_nonempty s : String.eqb s "" = false → s ≠ "".
Proof. intros E ->. discriminate. Qed.

Lemma append_empty_r s : s +:+ "" = s.
Proof.
  induction s as [|a s IH]; [reflexivity|].
  change (String a (s +:+ "") = String a s). by rewrite IH.
Qed.

Lemma append_assoc (a b c : string) : (a +:+ b) +:+ c = a +:+ (b +:+ c).
Proof.
  induction a as [|x a IH]; [reflexivity|].
  change (String x ((a +:+ b) +:+ c) = String x (a +:+ (b +:+ c))). by rewrite IH.
Qed.

Lemma append_length (a b : string) :
  String.length (a +:+ b) = (String.length a + String.length b)%nat.
Proof.
  induction a as [|x a IH]; [reflexivity|].
  change (S (String.length (a +:+ b)) = S (String.length a + String.length b)).
  by rewrite IH.
Qed.

Lemma append_cons a (s t : string) : String a s +:+ t = String a (s +:+ t).
Proof. reflexivity. Qed.

Lemma contains_append a b c :
  contains (a +:+ b) c = contains a c || contains b c.
Proof.
  induction a as [|x a IH]; [reflexivity|].
  change (Ascii.eqb x c || contains (a +:+ b) c
          = (Ascii.eqb x c || contains a c) || contains b c).
  rewrite IH. apply orb_assoc.
Qed.

Lemma take_drop n s : PyStr.take n s +:+ PyStr.drop n s = s.
Proof.
  revert s. induction n as [|n IH]; intros [|a s]; try reflexivity.
  cbn [PyStr.take PyStr.drop]. rewrite append_cons, IH. reflexivity.
Qed.

Lemma contains_drop n s c : contains s c = false → contains (PyStr.drop n s) c = false.
Proof.
  revert s. induction n as [|n IH]; intros [|a s] H; try exact H.
  cbn [PyStr.drop]. apply IH. cbn [contains] in H.
  apply orb_false_elim in H. tauto.
Qed.

Lemma drop_drop n m s : PyStr.drop n (PyStr.drop m s) = PyStr.drop (m + n) s.
Proof.
  revert s. induction m as [|m IH]; intros s; [reflexivity|].
  destruct s as [|a s]; [destruct n; reflexivity|]. cbn [PyStr.drop Nat.add]. apply IH.
Qed.

(** [rfind]: either the character does not occur and the default comes
    back, or the index found is that of its last occurrence. *)
Lemma rfind_from_spec c s : ∀ i acc,
  (contains s c = false ∧ PyStr.rfind_from c s i acc = acc)
  ∨ (i ≤ PyStr.rfind_from c s i acc < i + Z.of_nat (String.length s)
     ∧ ∃ rest, PyStr.drop (Z.to_nat (PyStr.rfind_from c s i acc - i)) s = String c rest
               ∧ contains rest c = false).
Proof.
  induction s as [|a s IH]; intros i acc; [left; split; reflexivity|].
  cbn [PyStr.rfind_from contains String.length].
  destruct (IH (i + 1) (if Ascii.eqb a c then i else acc))
    as [[Hn E]|(B & rest & D & Hr)].
  - rewrite E, Hn. destruct (Ascii.eqb_spec a c) as [->|].
    + right. split; [lia|]. exists s. rewrite Z.sub_diag. split; [reflexivity | exact Hn].
    + left. split; reflexivity.
  - right. split; [lia|]. exists rest. split; [|exact Hr].
    replace (Z.to_nat (PyStr.rfind_from c s (i + 1) (if Ascii.eqb a c then i else acc) - i))
      with (S (Z.to_nat (PyStr.rfind_from c s (i + 1)
                           (if Ascii.eqb a c then i else acc) - (i + 1)))) by lia.
    exact D.
Qed.

Lemma rfind_from_absent c s i acc :
  contains s c = false → PyStr.rfind_from c s i acc = acc.
Proof.
  revert i acc. induction s as [|a s IH]; intros i acc H; [reflexivity|].
  cbn [contains] in H. apply orb_false_elim in H as [Ha Hs].
  cbn [PyStr.rfind_from]. rewrite Ha. apply IH, Hs.
Qed.

Lemma rfind_from_append c a b i acc :
  PyStr.rfind_from c (a +:+ b) i acc
  = PyStr.rfind_from c b (i + Z.of_nat (String.length a)) (PyStr.rfind_from c a i acc).
Proof.
  revert i acc. induction a as [|x a IH]; intros i acc.
  - cbn [String.length PyStr.rfind_from]. change ("" +:+ b) with b.
    f_equal. lia.
  - rewrite append_cons. cbn [PyStr.rfind_from String.length]. rewrite IH.
    f_equal. lia.
Qed.

Lemma take_append a s : PyStr.take (String.length a) (a +:+ s) = a.
Proof.
  induction a as [|x a IH]; [destruct s; reflexivity|].
  rewrite append_cons. cbn [String.length PyStr.take]. by rewrite IH.
Qed.

Lemma drop_append a s : PyStr.drop (String.length a) (a +:+ s) = s.
Proof.
  induction a as [|x a IH]; [destruct s; reflexivity|].
  rewrite append_cons. cbn [String.length PyStr.drop]. exact IH.
Qed.

Lemma rstrip_snoc a c : PyStr.rstrip (a +:+ String c "") c = PyStr.rstrip a c.
Proof.
  induction a as [|x a IH].
  - change (PyStr.rstrip (String c "") c = ""). cbn [PyStr.rstrip].
    by rewrite Ascii.eqb_refl.
  - rewrite append_cons. cbn [PyStr.rstrip]. by rewrite IH.
Qed.

Lemma rstrip_id s c : PyStr.endswith s c = false → PyStr.rstrip s c = s.
Proof.
  induction s as [|a s IH]; [reflexivity|]. intros H.
  destruct s as [|b s].
  - cbn [PyStr.endswith] in H. cbn [PyStr.rstrip]. by rewrite H.
  - change (PyStr.endswith (String b s) c = false) in H.
    change (match PyStr.rstrip (String b s) c with
            | "" => if Ascii.eqb a c then "" else String a ""
            | r => String a r
            end = String a (String b s)).
    by rewrite (IH H).
Qed.

Lemma all_eq_endswith s c :
  s ≠ "" → PyStr.all_eq s c = true → PyStr.endswith s c = true.
Proof.
  induction s as [|a s IH]; [congruence|]. intros _ H.
  cbn [PyStr.all_eq] in H. apply andb_prop in H as [Ha Hs].
  destruct s as [|b s]; [exact Ha|].
  change (PyStr.endswith (String b s) c = true). by apply IH.
Qed.

Lemma all_eq_append a b c :
  PyStr.all_eq (a +:+ b) c = PyStr.all_eq a c && PyStr.all_eq b c.
Proof.
  induction a as [|x a IH]; [reflexivity|].
  rewrite append_cons. cbn [PyStr.all_eq]. rewrite IH. apply andb_assoc.
Qed.

(** The base name of a path has no separator. *)
Lemma basename_no_sep p : contains (PosixPath.basename p) PosixPath.sep = false.
Proof.
  unfold PosixPath.basename, PyStr.slice_from, PyStr.rfind.
  destruct (rfind_from_spec PosixPath.sep p 0 (-1)) as [[Hn E]|(B & rest & D & Hr)].
  - rewrite E. exact Hn.
  - rewrite Z.sub_0_r in D.
    replace (Z.to_nat (PyStr.rfind_from PosixPath.sep p 0 (-1) + 1))
      with (Z.to_nat (PyStr.rfind_from PosixPath.sep p 0 (-1)) + 1)%nat by lia.
    rewrite <- drop_drop, D. exact Hr.
Qed.

Lemma to_int_proper n : Z.to_int n ≠ Decimal.Pos Decimal.Nil
                        ∧ Z.to_int n ≠ Decimal.Neg Decimal.Nil.
Proof.
  destruct n as [|p|p]; simpl; split; try discriminate;
    intros H; inversion H as [H']; exact (Unsigned.to_uint_nonnil p H').
Qed.

(** Reading back what [str] prints gives the number printed. *)
Lemma of_int_value n : decimal_value (PyStr.of_int n) = Some n.
Proof.
  unfold decimal_value, PyStr.of_int.
  destruct (to_int_proper n) as [H1 H2].
  rewrite (NilZero.isi _ H1 H2). simpl. f_equal. apply DecimalZ.of_to.
Qed.

Lemma of_int_inj a b : PyStr.of_int a = PyStr.of_int b → a = b.
Proof.
  intros H. pose proof (of_int_value a) as Ha. rewrite H, of_int_value in Ha.
  congruence.
Qed.

Lemma uint_chars d c :
  PyDatetime.is_digit c = false →
  contains (NilEmpty.string_of_uint d) c = false.
Proof.
  intros Hc. induction d as [|d IH|d IH|d IH|d IH|d IH|d IH|d IH|d IH|d IH|d IH];
    [reflexivity|..];
    cbn [NilEmpty.string_of_uint contains]; rewrite IH, orb_false_r;
    match goal with
    | |- Ascii.eqb ?a c = false =>
        destruct (Ascii.eqb_spec a c) as [<-|]; [discriminate Hc | reflexivity]
    end.
Qed.

(** [str(n)] consists of digits, after a minus sign for a negative [n]. *)
Lemma of_int_chars n c :
  PyDatetime.is_digit c = false → c ≠ "-"%char →
  contains (PyStr.of_int n) c = false.
Proof.
  intros Hc Hm. unfold PyStr.of_int, NilZero.string_of_int, NilZero.string_of_uint.
  assert (H0 : contains "0" c = false).
  { cbn [contains]. rewrite orb_false_r.
    destruct (Ascii.eqb_spec "0"%char c) as [<-|]; [discriminate Hc | reflexivity]. }
  destruct (Z.to_int n) as [d|d].
  - destruct d; first [exact H0 | apply uint_chars, Hc].
  - cbn [contains]. apply orb_false_intro.
    + apply Ascii.eqb_neq. congruence.
    + destruct d; first [exact H0 | apply uint_chars, Hc].
Qed.

Lemma digit_is_digit n : PyDatetime.is_digit (digit n) = true.
Proof.
  unfold digit. pose proof (Z.mod_pos_bound n 10 ltac:(lia)) as B.
  remember (n mod 10) as k eqn:E. clear E.
  assert (C : k = 0 ∨ k = 1 ∨ k = 2 ∨ k = 3 ∨ k = 4 ∨ k = 5 ∨ k = 6 ∨ k = 7
              ∨ k = 8 ∨ k = 9) by lia.
  repeat destruct C as [->|C]; try subst k; reflexivity.
Qed.

Lemma digit_neq n c : PyDatetime.is_digit c = false → Ascii.eqb (digit n) c = false.
Proof.
  intros Hc. destruct (Ascii.eqb_spec (digit n) c) as [<-|]; [|reflexivity].
  rewrite digit_is_digit in Hc. discriminate.
Qed.

(** [str(n)] does not start with the path separator. *)
Lemma of_int_head n : ∃ ch rest, PyStr.of_int n = String ch rest
                                 ∧ Ascii.eqb ch PosixPath.sep = false.
Proof.
  assert (C : contains (PyStr.of_int n) PosixPath.sep = false)
    by (apply of_int_chars; [reflexivity | discriminate]).
  destruct (PyStr.of_int n) as [|ch rest] eqn:E.
  - pose proof (of_int_value n) as V. rewrite E in V. discriminate.
  - cbn [contains] in C. apply orb_false_elim in C as [C _]. eauto.
Qed.

(** ** The state monad *)

Lemma set_fs_set_fs m1 m2 st : set_fs m2 (set_fs m1 st) = set_fs m2 st.
Proof. reflexivity. Qed.

Lemma set_fs_same st : set_fs (fs st) st = st.
Proof. destruct st; reflexivity. Qed.

Lemma adds_dirs_refl b st : adds_dirs b st st.
Proof. split; [symmetry; apply set_fs_same | auto]. Qed.

Lemma adds_dirs_trans b1 b2 b st1 st2 st3 :
  (b1 ≤ b)%nat → (b2 ≤ b)%nat →
  adds_dirs b1 st1 st2 → adds_dirs b2 st2 st3 → adds_dirs b st1 st3.
Proof.
  intros Hb1 Hb2 [E1 F1] [E2 F2]. split.
  - rewrite E2 at 1. rewrite E1. reflexivity.
  - intros p. destruct (F1 p) as [A|(A1 & A2 & A3)], (F2 p) as [B|(B1 & B2 & B3)].
    + left; congruence.
    + right. repeat split; [congruence | assumption | lia].
    + right. repeat split; [assumption | congruence | lia].
    + congruence.
Qed.

(** ** Making directories *)

Lemma parent_check_state p st r st' :
  Os.parent_check p st = (r, st') → st' = st.
Proof.
  unfold Os.parent_check, Os.not_found, bind, gets, ret.
  destruct (String.eqb _ ""); [intros H; inversion H; reflexivity|].
  destruct (fs st !! _) as [[|c]|]; intros H; inversion H; reflexivity.
Qed.

(** The parent is fine when it is the current directory or a directory. *)
Lemma parent_check_ok p st :
  (Os.head_tail p).1 = "" ∨ fs st !! (Os.head_tail p).1 = Some Dir →
  Os.parent_check p st = (Ok tt, st).
Proof.
  unfold Os.parent_check, bind, gets, ret. intros [E|E].
  - rewrite E. reflexivity.
  - destruct (String.eqb _ ""); [reflexivity|]. rewrite E. reflexivity.
Qed.

(** However [os.mkdir] ends, it has at most added its directory. *)
Lemma mkdir_spec p st r st' :
  Os.mkdir p st = (r, st') → adds_dirs (String.length p) st st'.
Proof.
  unfold Os.mkdir, Os.path_exists, bind at 1, gets at 1, raise.
  destruct (fs st !! p) as [n|] eqn:E.
  - intros H; inversion H; subst. apply adds_dirs_refl.
  - unfold bind. destruct (Os.parent_check p st) as [[[]|e] st1] eqn:P;
      apply parent_check_state in P; subst st1; unfold modify;
      intros H; inversion H; subst; [|apply adds_dirs_refl].
    split; [reflexivity|]. intros q. cbn [fs set_fs].
    destruct (decide (p = q)) as [->|Hne].
    + right. rewrite lookup_insert_eq. auto.
    + left. by rewrite lookup_insert_ne.
Qed.

(** [os.mkdir] makes its directory when the name is free and the parent
    is a directory. *)
Lemma mkdir_makes p st :
  fs st !! p = None →
  (Os.head_tail p).1 = "" ∨ fs st !! (Os.head_tail p).1 = Some Dir →
  Os.mkdir p st = (Ok tt, set_fs (<[p := Dir]> (fs st)) st).
Proof.
  intros Hp Hparent. unfold Os.mkdir, Os.path_exists, bind at 1, gets at 1.
  rewrite Hp. unfold bind. rewrite (parent_check_ok p st Hparent). reflexivity.
Qed.

Lemma head_tail_length name h t :
  Os.head_tail name = (h, t) →
  (String.length h + String.length t ≤ String.length name)%nat.
Proof.
  unfold Os.head_tail. destruct (PosixPath.split name) as [h1 t1] eqn:E1.
  pose proof (split_length _ _ _ E1) as L1.
  destruct (String.eqb t1 "").
  - intros E2. pose proof (split_length _ _ _ E2). lia.
  - intros E2. inversion E2; subst. lia.
Qed.

Lemma makedirs_rec_eq fuel name :
  Os.makedirs_rec fuel name =
  let '(head, tail) := Os.head_tail name in
  bind (Os.path_exists head) (fun head_exists =>
    if negb (String.eqb head "") && negb (String.eqb tail "") && negb head_exists
    then
      match fuel with
      | O => raise FileNotFoundError
      | S fuel' =>
          bind (try_except (Os.makedirs_rec fuel' head) Os.is_FileExistsError (ret tt))
               (fun _ => if String.eqb tail "." then ret tt else Os.mkdir name)
      end
    else Os.mkdir name).
Proof. destruct fuel; reflexivity. Qed.

(** [os.makedirs] changes nothing but the filesystem, where it only adds
    directories, at paths no longer than its argument; and this however it
    ends. *)
Lemma makedirs_rec_adds_dirs fuel : ∀ name st r st',
  Os.makedirs_rec fuel name st = (r, st') →
  adds_dirs (String.length name) st st'.
Proof.
  induction fuel as [|fuel IH]; intros name st r st'; rewrite makedirs_rec_eq;
    destruct (Os.head_tail name) as [h t] eqn:E;
    pose proof (head_tail_length _ _ _ E) as Hlen;
    unfold bind at 1, Os.path_exists at 1, gets at 1;
    destruct (negb (String.eqb h "") && negb (String.eqb t "")
              && negb match fs st !! h with Some _ => true | None => false end)
      eqn:C.
  - unfold raise. intros H; inversion H; subst. apply adds_dirs_refl.
  - apply mkdir_spec.
  - assert (Hh : (String.length h ≤ String.length name)%nat) by lia.
    unfold bind, try_except.
    destruct (Os.makedirs_rec fuel h st) as [[[]|e] st1] eqn:R; apply IH in R.
    + destruct (String.eqb t ".").
      * unfold ret. intros H; inversion H; subst.
        eapply adds_dirs_trans; [exact Hh | reflexivity | exact R | apply adds_dirs_refl].
      * intros H. apply mkdir_spec in H.
        eapply adds_dirs_trans; [exact Hh | reflexivity | exact R | exact H].
    + destruct (Os.is_FileExistsError e).
      * unfold ret. destruct (String.eqb t ".").
        -- intros H; inversion H; subst.
           eapply adds_dirs_trans; [exact Hh | reflexivity | exact R | apply adds_dirs_refl].
        -- intros H. apply mkdir_spec in H.
           eapply adds_dirs_trans; [exact Hh | reflexivity | exact R | exact H].
      * intros H; inversion H; subst.
        eapply adds_dirs_trans; [exact Hh | reflexivity | exact R | apply adds_dirs_refl].
  - apply mkdir_spec.
Qed.

Lemma creatable_rec_eq fuel m p :
  creatable_rec fuel m p =
  match m !! p with
  | Some Dir => true
  | Some (File _) => false
  | None =>
      let '(head, tail) := Os.head_tail p in
      if String.eqb tail "" || String.eqb tail "." || String.eqb tail ".." then false
      else if String.eqb head "" then true
      else
        match fuel with
        | O => false
        | S fuel' => creatable_rec fuel' m head
        end
  end.
Proof. destruct fuel; reflexivity. Qed.

(** What is there and creatable is a directory. *)
Lemma creatable_rec_there fuel m p n :
  creatable_rec fuel m p = true → m !! p = Some n → n = Dir.
Proof.
  rewrite creatable_rec_eq. intros H E. rewrite E in H.
  destruct n; [reflexivity | discriminate].
Qed.

(** When [name] is missing and creatable, [os.makedirs(name)] returns and
    [name] is a directory. *)
Lemma makedirs_rec_makes fuel : ∀ f name st,
  (String.length name ≤ fuel)%nat →
  fs st !! name = None →
  creatable_rec f (fs st) name = true →
  ∃ st', Os.makedirs_rec fuel name st = (Ok tt, st')
         ∧ fs st' !! name = Some Dir.
Proof.
  induction fuel as [|fuel IH]; intros f name st Hfuel Hnone Hc;
    rewrite creatable_rec_eq, Hnone in Hc; rewrite makedirs_rec_eq;
    destruct (Os.head_tail name) as [h t] eqn:E;
    pose proof (head_tail_length _ _ _ E) as Hlen;
    destruct (String.eqb t "") eqn:Et; try discriminate Hc;
    destruct (String.eqb t ".") eqn:Ed; try discriminate Hc;
    destruct (String.eqb t "..") eqn:Edd; try discriminate Hc;
    cbn [orb] in Hc;
    pose proof (length_nonempty t (eqb_false_nonempty t Et)) as Lt;
    unfold bind at 1, Os.path_exists at 1, gets at 1;
    (assert (Hmk : (h = "" ∨ fs st !! h = Some Dir) →
                   ∃ st', Os.mkdir name st = (Ok tt, st') ∧ fs st' !! name = Some Dir);
     [intros Hparent; eexists; split;
      [apply mkdir_makes; [exact Hnone | rewrite E; exact Hparent]
      | cbn [fs set_fs]; apply lookup_insert_eq]|]);
    destruct (String.eqb h "") eqn:Eh.
  - apply String.eqb_eq in Eh. cbn [negb andb]. apply Hmk. by left.
  - destruct f as [|f]; [discriminate|].
    destruct (fs st !! h) as [n|] eqn:Hh; cbn [negb andb].
    + apply Hmk. right. f_equal. eapply creatable_rec_there; eassumption.
    + apply eqb_false_nonempty, length_nonempty in Eh. lia.
  - apply String.eqb_eq in Eh. cbn [negb andb]. apply Hmk. by left.
  - destruct f as [|f]; [discriminate|].
    destruct (fs st !! h) as [n|] eqn:Hh; cbn [negb andb].
    + apply Hmk. right. f_equal. eapply creatable_rec_there; eassumption.
    + destruct (IH f h st ltac:(lia) Hh Hc) as (st1 & R & Hd1).
      unfold bind, try_except. rewrite R.
      apply makedirs_rec_adds_dirs in R as [_ F].
      assert (Hn1 : fs st1 !! name = None).
      { destruct (F name) as [A|(_ & _ & A)]; [congruence | lia]. }
      eexists. split.
      * apply mkdir_makes; [exact Hn1 | rewrite E; right; exact Hd1].
      * cbn [fs set_fs]. apply lookup_insert_eq.
Qed.

(** Directories that appear, and changes further down than [p], do not
    take away that [p] is creatable. *)
Lemma creatable_rec_mono fuel m m' : ∀ p,
  (∀ k, (String.length k ≤ String.length p)%nat →
        (m !! k = Some Dir → m' !! k = Some Dir)
        ∧ (m !! k = None → m' !! k = None ∨ m' !! k = Some Dir)) →
  creatable_rec fuel m p = true → creatable_rec fuel m' p = true.
Proof.
  induction fuel as [|fuel IH]; intros p Hk; rewrite !creatable_rec_eq;
    destruct (Hk p ltac:(lia)) as [HD HN];
    destruct (m !! p) as [[|c]|] eqn:E; try discriminate.
  - intros _. rewrite (HD eq_refl). reflexivity.
  - destruct (HN eq_refl) as [->| ->]; [|reflexivity]. exact id.
  - intros _. rewrite (HD eq_refl). reflexivity.
  - destruct (HN eq_refl) as [->| ->]; [|reflexivity].
    destruct (Os.head_tail p) as [h t] eqn:Eht.
    pose proof (head_tail_length _ _ _ Eht) as Hlen.
    destruct (_ || _); [exact id|]. destruct (String.eqb h ""); [exact id|].
    apply IH. intros k Lk. apply Hk. lia.
Qed.

Lemma creatable_grows st st' p :
  fs_grows st st' → creatable st p = true → creatable st' p = true.
Proof.
  intros F. apply creatable_rec_mono. intros k _.
  destruct (F k) as [A|[A B]]; split; intros H; rewrite ?A, ?B; auto; congruence.
Qed.


(** [if not os.path.exists(p): os.makedirs(p)] on a creatable [p] returns,
    adds nothing but directories no longer than [p], and [p] is a directory
    afterwards. *)
Lemma ensure_dir_spec p st :
  creatable st p = true →
  ∃ st', when (negb match fs st !! p with Some _ => true | None => false end)
              (Os.makedirs p) st = (Ok tt, st')
         ∧ adds_dirs (String.length p) st st'
         ∧ fs st' !! p = Some Dir.
Proof.
  intros Hc. destruct (fs st !! p) as [n|] eqn:E; cbn [negb when].
  - exists st. split; [reflexivity|]. split; [apply adds_dirs_refl|].
    rewrite E. f_equal. eapply creatable_rec_there; eassumption.
  - destruct (makedirs_rec_makes (String.length p) _ p st (le_n _) E Hc)
      as (st' & R & Hd).
    exists st'. split; [exact R|]. split; [|exact Hd].
    eapply makedirs_rec_adds_dirs, R.
Qed.

(** ** Frame reasoning *)

Section Frames.
Variable R : State → State → Prop.
Hypothesis R_refl : ∀ st, R st st.
Hypothesis R_trans : ∀ st1 st2 st3, R st1 st2 → R st2 st3 → R st1 st3.

Lemma preserves_ret {A} (a : A) : preserves R (ret a).
Proof. intros st r st' H. inversion H; subst. apply R_refl. Qed.

Lemma preserves_raise {A} e : preserves R (@raise A e).
Proof. intros st r st' H. inversion H; subst. apply R_refl. Qed.

Lemma preserves_gets {A} (f : State → A) : preserves R (gets f).
Proof. intros st r st' H. inversion H; subst. apply R_refl. Qed.

Lemma preserves_not_found {A} p : preserves R (@Os.not_found A p).
Proof. intros st r st' H. inversion H; subst. apply R_refl. Qed.

Lemma preserves_modify g : (∀ st, R st (g st)) → preserves R (modify g).
Proof. intros Hg st r st' H. inversion H; subst. apply Hg. Qed.

Lemma preserves_bind {A B} (m : M A) (k : A → M B) :
  preserves R m → (∀ a, preserves R (k a)) → preserves R (bind m k).
Proof.
  intros Hm Hk st r st'. unfold bind.
  destruct (m st) as [[a|e] st1] eqn:E; intros H.
  - eapply R_trans; [eapply Hm, E | eapply Hk, H].
  - inversion H; subst. eapply Hm, E.
Qed.

Lemma preserves_try_except {A} (m h : M A) catches :
  preserves R m → preserves R h → preserves R (try_except m catches h).
Proof.
  intros Hm Hh st r st'. unfold try_except.
  destruct (m st) as [[a|e] st1] eqn:E; intros H.
  - inversion H; subst. eapply Hm, E.
  - destruct (catches e).
    + eapply R_trans; [eapply Hm, E | eapply Hh, H].
    + inversion H; subst. eapply Hm, E.
Qed.

Lemma preserves_when b m : preserves R m → preserves R (when b m).
Proof. destruct b; [auto | intros _; apply preserves_ret]. Qed.

Lemma preserves_for_each {A} (l : list A) body :
  (∀ x, preserves R (body x)) → preserves R (for_each l body).
Proof.
  intros Hb. induction l as [|x l IH]; simpl.
  - apply preserves_ret.
  - apply preserves_bind; auto.
Qed.

(** The primitives that only write the filesystem, the console or the
    list of spawned processes preserve [R] when [R] ignores that field. *)
Hypothesis R_console : ∀ l st, R st (set_console l st).

Lemma preserves_log lvl msg : preserves R (log lvl msg).
Proof. apply preserves_modify. intros st. apply R_console. Qed.

Lemma preserves_path_exists p : preserves R (Os.path_exists p).
Proof. apply preserves_gets. Qed.

Lemma preserves_parent_check p : preserves R (Os.parent_check p).
Proof. intros st r st' H. apply parent_check_state in H. subst. apply R_refl. Qed.

Lemma preserves_get_date_taken p : preserves R (get_date_taken p).
Proof.
  apply preserves_bind.
  - apply preserves_bind; [apply preserves_gets|].
    intros [[|[|tag]]|];
      first [apply preserves_raise | apply preserves_ret | apply preserves_not_found].
  - intros [tag|]; [apply preserves_ret | apply preserves_raise].
Qed.

Lemma preserves_datetime_strptime s : preserves R (datetime_strptime s).
Proof.
  unfold datetime_strptime.
  destruct (PyDatetime.strptime_exif s); [apply preserves_ret | apply preserves_raise].
Qed.

Lemma preserves_datetime_strftime t fmt : preserves R (datetime_strftime t fmt).
Proof. destruct t; [apply preserves_ret | apply preserves_raise]. Qed.

Lemma preserves_locate pic storage : preserves R (locate pic storage).
Proof.
  apply preserves_try_except.
  - apply preserves_bind; [apply preserves_get_date_taken | intros tag].
    apply preserves_bind; [apply preserves_datetime_strptime | intros t].
    apply preserves_ret.
  - apply preserves_bind; [apply preserves_log | intros _; apply preserves_ret].
Qed.

Lemma preserves_plan cfg pic extension :
  preserves R (plan cfg pic extension).
Proof.
  apply preserves_bind; [apply preserves_locate | intros located].
  apply preserves_bind; [apply preserves_gets | intros s].
  destruct (names located.1 s extension). apply preserves_ret.
Qed.

End Frames.

Lemma keeps_refl {A} (f : State → A) st : keeps f st st.
Proof. reflexivity. Qed.

Lemma keeps_trans {A} (f : State → A) st1 st2 st3 :
  keeps f st1 st2 → keeps f st2 st3 → keeps f st1 st3.
Proof. unfold keeps. congruence. Qed.

Ltac keeps_bind :=
  apply preserves_bind; [apply keeps_trans | | intros ?].
Ltac keeps_done :=
  first [ apply preserves_gets, keeps_refl
        | apply preserves_raise, keeps_refl
        | apply preserves_not_found, keeps_refl
        | apply preserves_ret, keeps_refl ].

Section FsWriters.
Context {A : Type} (f : State → A).
Hypothesis f_fs : ∀ m st, f (set_fs m st) = f st.

Lemma makedirs_keeps p : preserves (keeps f) (Os.makedirs p).
Proof.
  intros st r st' H. apply makedirs_rec_adds_dirs in H as [E _].
  unfold keeps. rewrite E. apply f_fs.
Qed.

Lemma rename_keeps src dst : preserves (keeps f) (Os.rename src dst).
Proof.
  unfold Os.rename.
  keeps_bind; [keeps_done|].
  match goal with
  | |- preserves _ (match ?x with _ => _ end) => destruct x; [|keeps_done]
  end.
  keeps_bind; [apply preserves_parent_check, keeps_refl|].
  keeps_bind; [keeps_done|].
  repeat match goal with
         | |- preserves _ (match ?x with _ => _ end) => destruct x
         end;
    first [ keeps_done | apply preserves_modify; intros st; apply f_fs ].
Qed.

Lemma shutil_move_keeps src dst : preserves (keeps f) (shutil_move src dst).
Proof.
  unfold shutil_move.
  keeps_bind; [keeps_done|].
  repeat match goal with
         | |- preserves _ (if ?x then _ else _) => destruct x
         end; try apply rename_keeps.
  keeps_bind; [keeps_done|].
  repeat match goal with
         | |- preserves _ (if ?x then _ else _) => destruct x
         end; first [keeps_done | apply rename_keeps].
Qed.

End FsWriters.

Lemma after_modify {B} (R : State → State → Prop) g (k : unit → M B) st r st' :
  (∀ a, preserves R (k a)) → bind (modify g) k st = (r, st') → R (g st) st'.
Proof. intros Hk H. exact (Hk tt _ _ _ H). Qed.

Ltac keeps_cases :=
  repeat match goal with
         | |- preserves _ (if ?x then _ else _) => destruct x
         | |- preserves _ (match ?x with _ => _ end) => destruct x
         | |- preserves _ (when _ _) => apply preserves_when; [apply keeps_refl|]
         end.

(** What the functions of the importer leave alone: any view [f] of the
    state that does not look at the fields they write. *)
Section ImporterFrames.
Context {A : Type} (f : State → A).
Variable args : Args.
Variable cfg : Config.
Hypothesis f_fs : ∀ m st, f (set_fs m st) = f st.
Hypothesis f_console : ∀ l st, f (set_console l st) = f st.

Lemma log_keeps lvl msg : preserves (keeps f) (log lvl msg).
Proof. apply preserves_log. intros l st. apply f_console. Qed.

Lemma plan_keeps pic extension : preserves (keeps f) (plan cfg pic extension).
Proof.
  apply preserves_plan;
    [apply keeps_refl | apply keeps_trans | intros l st; apply f_console].
Qed.

Section Rejects.
Hypothesis f_reject_count : ∀ n st, f (set_reject_count n st) = f st.

Lemma reject_keeps file : preserves (keeps f) (reject args cfg file).
Proof.
  unfold reject.
  keeps_bind; [apply preserves_modify; intros st; apply f_reject_count|].
  keeps_bind; [keeps_done|].
  keeps_bind; [keeps_cases; apply makedirs_keeps, f_fs|].
  keeps_cases; [apply log_keeps | apply shutil_move_keeps, f_fs].
Qed.

Lemma reject_video_keeps video : preserves (keeps f) (reject_video args cfg video).
Proof.
  unfold reject_video.
  keeps_bind; [apply preserves_modify; intros st; apply f_reject_count|].
  keeps_bind; [keeps_done|].
  keeps_bind; [keeps_cases; apply makedirs_keeps, f_fs|].
  keeps_cases; [apply log_keeps | apply shutil_move_keeps, f_fs].
Qed.
End Rejects.

(** The part of [apply] before the call of darktable. *)
Lemma apply_move_keeps pic dec :
  preserves (keeps f)
    (bind (Os.path_exists (new_filepath dec)) (fun ex =>
       bind (when (negb ex)
               (if negb (dryrun args) then Os.makedirs (new_filepath dec)
                else log INFO ("ACTION: create folder: " +:+ new_filepath dec)))
            (fun _ =>
               if negb (dryrun args)
               then shutil_move pic (PosixPath.join (new_filepath dec) [new_name dec])
               else log INFO ("ACTION: move " +:+ pic +:+ " to "
                              +:+ PosixPath.join (new_filepath dec) [new_name dec])))).
Proof.
  keeps_bind; [keeps_done|].
  keeps_bind;
    [keeps_cases; first [apply makedirs_keeps, f_fs | apply log_keeps]|].
  keeps_cases; first [apply shutil_move_keeps, f_fs | apply log_keeps].
Qed.

Section Spawning.
Hypothesis f_spawned : ∀ l st, f (set_spawned l st) = f st.

Lemma subprocess_run_keeps argv : preserves (keeps f) (subprocess_run argv).
Proof.
  destruct argv as [|cmd argv]; [keeps_done|]. unfold subprocess_run.
  keeps_bind; [keeps_done|].
  keeps_cases; [apply preserves_modify; intros st; apply f_spawned | keeps_done].
Qed.

Lemma apply_keeps pic extension dec :
  preserves (keeps f) (apply args cfg pic extension dec).
Proof.
  unfold apply.
  keeps_bind; [keeps_done|].
  keeps_bind;
    [keeps_cases; first [apply makedirs_keeps, f_fs | apply log_keeps]|].
  keeps_bind;
    [keeps_cases; first [apply shutil_move_keeps, f_fs | apply log_keeps]|].
  keeps_cases; try apply log_keeps; try keeps_done.
  keeps_bind; [keeps_done|].
  keeps_bind; [keeps_cases; apply makedirs_keeps, f_fs|].
  keeps_bind; [apply preserves_datetime_strftime, keeps_refl|].
  apply subprocess_run_keeps.
Qed.

Hypothesis f_reject_count : ∀ n st, f (set_reject_count n st) = f st.

(** The loop body after [serial += 1]. *)
Lemma process_pic_keeps pic st r st' :
  process_pic args cfg pic st = (r, st') →
  f st' = f (set_serial (serial st + 1) st).
Proof.
  unfold process_pic. intros H.
  eapply (after_modify (keeps f)) in H; [exact H|]. intros _.
  destruct (PosixPath.splitext pic) as [original_name extension].
  destruct (classify (PyStr.lower extension)).
  - keeps_bind; [apply plan_keeps | apply apply_keeps].
  - keeps_bind; [apply plan_keeps | apply apply_keeps].
  - keeps_bind; [apply log_keeps | apply reject_video_keeps, f_reject_count].
  - keeps_bind; [apply log_keeps | apply reject_keeps, f_reject_count].
Qed.
End Spawning.

End ImporterFrames.

(** ** The serial counter *)

Lemma process_pic_serial args cfg pic st r st' :
  process_pic args cfg pic st = (r, st') → serial st' = serial st + 1.
Proof.
  intros H. apply (process_pic_keeps serial) in H; try reflexivity. exact H.
Qed.

(** The loop adds one to [serial] for each file it reaches: all of them
    when it runs to the end, the first [k + 1] when it is cut short at the
    file of index [k]. *)
Lemma for_each_serial args cfg pics : ∀ st,
  match for_each pics (process_pic args cfg) st with
  | (Ok _, st') => serial st' = serial st + Z.of_nat (length pics)
  | (Raise _, st') =>
      ∃ k, (k < length pics)%nat ∧ serial st' = serial st + Z.of_nat k + 1
  end.
Proof.
  induction pics as [|pic pics IH]; intros st; simpl.
  - unfold ret. lia.
  - unfold bind. destruct (process_pic args cfg pic st) as [[[]|e] st1] eqn:E;
      apply process_pic_serial in E.
    + specialize (IH st1).
      destruct (for_each pics (process_pic args cfg) st1) as [[[]|e] st2].
      * lia.
      * destruct IH as (k & Hk & IH). exists (S k). split; [lia|]. lia.
    + exists 0%nat. split; [lia|]. lia.
Qed.

(** The state in which [main] starts when the configuration is there. *)
Lemma startup_ok st cfg :
  importer_ini st = Some cfg →
  ∃ st0, startup st = (Ok cfg, st0)
         ∧ serial st0 = persisted st ∧ allpics st0 = [] ∧ reject_count st0 = 0
         ∧ fs st0 = fs st ∧ walk_files st0 = walk_files st
         ∧ serial_pk st0 = serial_pk st ∧ spawned st0 = spawned st
         ∧ In (INFO, "serial number starting at: " +:+ PyStr.of_int (persisted st))
              (console st0).
Proof.
  intros Hini. unfold startup, persisted, bind, modify, gets, log, ret. simpl.
  destruct (serial_pk st) as [n|] eqn:Hpk; simpl; rewrite Hini;
    eexists; (split; [reflexivity|]); simpl; rewrite ?Hpk;
    repeat split; try reflexivity;
    apply in_or_app; right; left; reflexivity.
Qed.

(** ** The try statement around the EXIF date *)

(** [locate] as a function of [extract_capture_time]: with a capture time
    the dated directory and an untouched state, without one the [nodate]
    directory and one warning on the console. No exception leaves it. *)
Lemma locate_eq pic storage st :
  locate pic storage st =
  match extract_capture_time st pic with
  | Some t =>
      (Ok (Some t, PosixPath.join storage [PyDatetime.strftime t "%Y";
                                           PyDatetime.strftime t "%m"]), st)
  | None =>
      (Ok (None, PosixPath.join storage ["nodate"]),
       set_console
         (console st ++ [(WARNING, "Error raised on import of EXIF tag for " +:+ pic
                                   +:+ "date in filename will be set to 'nodate'")])
         st)
  end.
Proof.
  unfold locate, extract_capture_time, try_except, get_date_taken, Os.read_exif,
    Os.not_found, datetime_strptime, bind, gets, raise, ret, log, modify.
  destruct (fs st !! pic) as [[|[|[tag|]]]|]; simpl; try reflexivity.
  - destruct (PyDatetime.strptime_exif tag); reflexivity.
  - destruct (Os.below_file _ _ _); reflexivity.
Qed.

Lemma plan_eq cfg pic extension st :
  plan cfg pic extension st =
  let st' := (locate pic (storage_path cfg extension) st).2 in
  let taken := extract_capture_time st pic in
  (Ok {| date_taken := taken;
         new_filepath :=
           match taken with
           | Some t => PosixPath.join (storage_path cfg extension)
                         [PyDatetime.strftime t "%Y"; PyDatetime.strftime t "%m"]
           | None => PosixPath.join (storage_path cfg extension) ["nodate"]
           end;
         new_name := (names taken (serial st) extension).1;
         new_jname := (names taken (serial st) extension).2 |}, st').
Proof.
  unfold plan, bind. rewrite locate_eq.
  destruct (extract_capture_time st pic) as [t|]; simpl; reflexivity.
Qed.

(** ** What a dry run leaves alone *)

Lemma dry_frame_refl st : dry_frame st st.
Proof. repeat split. intros p. by left. Qed.

Lemma dry_frame_trans st1 st2 st3 :
  dry_frame st1 st2 → dry_frame st2 st3 → dry_frame st1 st3.
Proof.
  intros (S1 & P1 & F1) (S2 & P2 & F2). repeat split; [congruence..|].
  intros p. destruct (F1 p) as [A|[A1 A2]], (F2 p) as [B|[B1 B2]].
  - left; congruence.
  - right; split; congruence.
  - right; split; congruence.
  - congruence.
Qed.

Lemma dry_frame_console l st : dry_frame st (set_console l st).
Proof. repeat split. intros p. by left. Qed.

Lemma dry_frame_globals st st' :
  fs st' = fs st → spawned st' = spawned st → serial_pk st' = serial_pk st →
  dry_frame st st'.
Proof. intros F S P. repeat split; try assumption. intros p. left. by rewrite F. Qed.

Lemma makedirs_dry_frame p : preserves dry_frame (Os.makedirs p).
Proof.
  intros st r st' H. apply makedirs_rec_adds_dirs in H as [E F].
  repeat split; [rewrite E; reflexivity..|].
  intros q. destruct (F q) as [A|(A1 & A2 & _)]; [by left | by right].
Qed.

Ltac dry_bind :=
  apply preserves_bind; [apply dry_frame_trans | | intros ?].
Ltac dry_done :=
  first [ apply preserves_gets, dry_frame_refl
        | apply preserves_ret, dry_frame_refl
        | apply preserves_raise, dry_frame_refl
        | apply preserves_log, dry_frame_console
        | apply preserves_modify; intros ?; apply dry_frame_globals; reflexivity ].

Section DryRunFrame.
Variable args : Args.
Variable cfg : Config.
Hypothesis Hdry : dryrun args = true.

Lemma dryrun_reject_frame file : preserves dry_frame (reject args cfg file).
Proof.
  unfold reject. rewrite Hdry.
  dry_bind; [dry_done|]. dry_bind; [dry_done|].
  dry_bind; [|dry_done].
  apply preserves_when; [apply dry_frame_refl | apply makedirs_dry_frame].
Qed.

Lemma dryrun_reject_video_frame video :
  preserves dry_frame (reject_video args cfg video).
Proof.
  unfold reject_video. rewrite Hdry.
  dry_bind; [dry_done|]. dry_bind; [dry_done|].
  dry_bind; [|dry_done].
  apply preserves_when; [apply dry_frame_refl | apply makedirs_dry_frame].
Qed.

Lemma dryrun_apply_frame pic extension dec :
  preserves dry_frame (apply args cfg pic extension dec).
Proof.
  unfold apply. rewrite Hdry. simpl.
  dry_bind; [dry_done|].
  dry_bind; [apply preserves_when; [apply dry_frame_refl | dry_done]|].
  dry_bind; [dry_done|].
  destruct (String.eqb extension ".cr2"); dry_done.
Qed.

Lemma dryrun_process_pic_frame pic : preserves dry_frame (process_pic args cfg pic).
Proof.
  unfold process_pic.
  dry_bind; [dry_done|].
  destruct (PosixPath.splitext pic) as [original_name extension].
  destruct (classify (PyStr.lower extension)).
  - dry_bind; [|apply dryrun_apply_frame].
    apply preserves_plan;
      [apply dry_frame_refl | apply dry_frame_trans | apply dry_frame_console].
  - dry_bind; [|apply dryrun_apply_frame].
    apply preserves_plan;
      [apply dry_frame_refl | apply dry_frame_trans | apply dry_frame_console].
  - dry_bind; [dry_done | apply dryrun_reject_video_frame].
  - dry_bind; [dry_done | apply dryrun_reject_frame].
Qed.

Lemma dryrun_main_frame : preserves dry_frame (main args cfg).
Proof.
  unfold main. rewrite Hdry. cbn [negb].
  dry_bind; [dry_done|].
  dry_bind.
  { destruct (get_serial args); [|dry_done].
    dry_bind; [|dry_done]. dry_bind; dry_done. }
  dry_bind; [|dry_done].
  unfold process.
  dry_bind; [dry_done|]. dry_bind; [dry_done|]. dry_bind; [dry_done|].
  apply preserves_for_each;
    [apply dry_frame_refl | apply dry_frame_trans | apply dryrun_process_pic_frame].
Qed.

(** Under dry-run a photo is dealt with by log records alone. *)
Lemma dryrun_apply_returns pic extension dec st :
  ∃ st', apply args cfg pic extension dec st = (Ok tt, st').
Proof.
  unfold apply. rewrite Hdry. cbn [negb].
  unfold bind, Os.path_exists, gets, when, log, modify, ret.
  destruct (fs st !! new_filepath dec); cbn [negb];
    destruct (String.eqb extension ".cr2"); eexists; reflexivity.
Qed.

(** Under dry-run the loop body returns when the two reject directories
    are there or can be made. *)
Lemma dryrun_process_pic_returns pic st :
  reject_dirs_creatable cfg st = true →
  ∃ st', process_pic args cfg pic st = (Ok tt, st')
         ∧ reject_dirs_creatable cfg st' = true.
Proof.
  intros Hc.
  assert (Hret : ∃ st', process_pic args cfg pic st = (Ok tt, st')).
  { apply andb_prop in Hc as [Hr Hv].
    unfold process_pic, bind at 1, modify.
    destruct (PosixPath.splitext pic) as [original_name extension].
    destruct (classify (PyStr.lower extension)).
    - unfold bind. rewrite plan_eq. apply dryrun_apply_returns.
    - unfold bind. rewrite plan_eq. apply dryrun_apply_returns.
    - unfold bind at 1, log at 1, modify.
      unfold reject_video, bind at 1, modify. unfold bind at 1, Os.path_exists, gets.
      match goal with
      | |- context [when (negb match fs ?s !! ?p with _ => _ end) _] =>
          destruct (ensure_dir_spec p s Hv) as (st1 & E1 & _)
      end.
      unfold bind. rewrite E1, Hdry. unfold log, modify. eauto.
    - unfold bind at 1, log at 1, modify.
      unfold reject, bind at 1, modify. unfold bind at 1, Os.path_exists, gets.
      match goal with
      | |- context [when (negb match fs ?s !! ?p with _ => _ end) _] =>
          destruct (ensure_dir_spec p s Hr) as (st1 & E1 & _)
      end.
      unfold bind. rewrite E1, Hdry. unfold log, modify. eauto. }
  destruct Hret as [st' E]. exists st'. split; [exact E|].
  destruct (dryrun_process_pic_frame pic _ _ _ E) as (_ & _ & F).
  apply andb_prop in Hc as [Hr Hv]. apply andb_true_intro.
  split; eapply creatable_grows; eassumption.
Qed.

Lemma dryrun_loop_returns pics : ∀ st,
  reject_dirs_creatable cfg st = true →
  ∃ st', for_each pics (process_pic args cfg) st = (Ok tt, st').
Proof.
  induction pics as [|pic pics IH]; intros st Hc; cbn [for_each].
  - unfold ret. eauto.
  - destruct (dryrun_process_pic_returns pic st Hc) as (st1 & E & Hc1).
    unfold bind. rewrite E. apply IH, Hc1.
Qed.

End DryRunFrame.

Lemma startup_dry_frame : preserves dry_frame startup.
Proof.
  unfold startup.
  dry_bind; [dry_done|]. dry_bind; [dry_done|].
  dry_bind.
  { match goal with
    | |- preserves _ (match ?x with _ => _ end) => destruct x
    end; (dry_bind; dry_done). }
  dry_bind; [dry_done|]. dry_bind; [dry_done|]. dry_bind; [dry_done|].
  match goal with
  | |- preserves _ (match ?x with _ => _ end) => destruct x
  end; [dry_done|].
  dry_bind; [dry_done|]. dry_bind; dry_done.
Qed.

(** A dry run, however it ends, starts no process, leaves the pickle file
    and every regular file where they are; directories may appear. *)
Lemma dryrun_program_frame args :
  dryrun args = true → preserves dry_frame (program args).
Proof.
  intros Hdry. unfold program.
  dry_bind; [apply startup_dry_frame | apply dryrun_main_frame, Hdry].
Qed.

(** ** Dry-run and the reject directories *)

(** C1. A dry run over an inbox with one unsupported file and one video
    returns, moves neither file, starts no process and leaves the pickle
    file alone, but it creates the reject directory and the video
    directory, which did not exist: [reject] and [reject_video] call
    [os.makedirs] without looking at [--dryrun]. *)
Theorem dryrun_creates_reject_directories :
  let st := world [("/photos/inbox/notes.txt", Image None);
                   ("/photos/inbox/clip.mp4", Image None)] (Some 5) in
  let res := program dry_run st in
  (fs st !! "/photos/reject" = None ∧ fs st !! "/photos/video" = None)
  ∧ res.1 = Ok tt
  ∧ (fs res.2 !! "/photos/reject" = Some Dir ∧ fs res.2 !! "/photos/video" = Some Dir)
  ∧ (fs res.2 !! "/photos/inbox/notes.txt" = Some (File (Image None))
     ∧ fs res.2 !! "/photos/inbox/clip.mp4" = Some (File (Image None)))
  ∧ spawned res.2 = []
  ∧ serial_pk res.2 = Some 5.
Proof. vm_compute. repeat split. Qed.

(** ** The serial counter over a run *)

(** C3. A run that processes the inbox adds one to the serial read at
    startup for each file it reaches, whatever the file's classification:
    when the run returns the counter is that serial plus the number [N] of
    files in the inbox, and when an exception cuts it short at the file of
    index [k] it is that serial plus [k + 1]. *)
Theorem serial_advances_once_per_file args cfg st :
  importer_ini st = Some cfg →
  get_serial args = false →
  let N := length (walk_files st (p_inbox cfg)) in
  match program args st with
  | (Ok _, st') => serial st' = persisted st + Z.of_nat N
  | (Raise _, st') =>
      ∃ k, (k < N)%nat ∧ serial st' = persisted st + Z.of_nat k + 1
  end.
Proof.
  intros Hini Hget N.
  destruct (startup_ok st cfg Hini)
    as (st0 & E0 & Hs & Hall & _ & _ & Hwalk & _).
  unfold program, bind at 1. rewrite E0.
  destruct (main args cfg st0) as [r st'] eqn:Em.
  assert (Hloop : ∃ st1 st2 r2,
             for_each (walk_files st (p_inbox cfg)) (process_pic args cfg) st1
             = (r2, st2)
             ∧ serial st1 = persisted st
             ∧ match r2 with
               | Ok _ => serial st' = serial st2
               | Raise e => r = Raise e ∧ st' = st2
               end
             ∧ (match r with Ok _ => True | Raise _ => ∃ e, r2 = Raise e end)).
  { revert Em. unfold main, process. rewrite Hget.
    unfold bind, log, modify, gets, ret, pickle_dump. simpl.
    rewrite Hall, Hwalk. simpl.
    match goal with
    | |- context [for_each ?l ?b ?s] =>
        destruct (for_each l b s) as [[[]|e] st2] eqn:Ef; intros Em;
        exists s, st2
    end.
    - exists (Ok tt). split; [exact Ef|]. split; [exact Hs|].
      destruct (dryrun args); simpl in Em; inversion Em; subst; simpl; auto.
    - exists (Raise e). split; [exact Ef|]. split; [exact Hs|].
      inversion Em; subst. eauto. }
  destruct Hloop as (st1 & st2 & r2 & Ef & Hs1 & Hr2 & Hr).
  pose proof (for_each_serial args cfg (walk_files st (p_inbox cfg)) st1) as L.
  rewrite Ef in L. fold N in L.
  destruct r as [[]|e].
  - destruct r2 as [[]|e2]; [lia | destruct Hr2 as [? _]; discriminate].
  - destruct Hr as [e2 ->]. destruct Hr2 as [_ ->].
    destruct L as (k & Hk & L). exists k. split; [exact Hk | lia].
Qed.

Lemma serial_advances_once_per_file_witness :
  let st := world [("/photos/inbox/a.jpg", Image (Some "2023:04:05 11:22:33"));
                   ("/photos/inbox/notes", Image None);
                   ("/photos/inbox/clip.mkv", Unreadable)] (Some 41) in
  importer_ini st = Some sample_cfg
  ∧ get_serial real_run = false
  ∧ match program real_run st with
    | (Ok _, st') =>
        serial st' = persisted st
                     + Z.of_nat (length (walk_files st (p_inbox sample_cfg)))
    | (Raise _, st') =>
        ∃ k, (k < length (walk_files st (p_inbox sample_cfg)))%nat
             ∧ serial st' = persisted st + Z.of_nat k + 1
    end.
Proof.
  split; [reflexivity|]. split; [reflexivity|].
  exact (serial_advances_once_per_file real_run sample_cfg
           (world [("/photos/inbox/a.jpg", Image (Some "2023:04:05 11:22:33"));
                   ("/photos/inbox/notes", Image None);
                   ("/photos/inbox/clip.mkv", Unreadable)] (Some 41))
           eq_refl eq_refl).
Defined.

(** ** Raw photos without a capture time *)

(** C2. A real run over an inbox whose first file is a raw photo without
    EXIF date: the raw file is moved to [<raw>/nodate/9.cr2] and the jpeg
    name [9.jpg] is computed, but the run then ends in a [TypeError], from
    [datetime.strftime(date_taken, '%Y')] with [date_taken] being [None]:
    darktable is not started, no [<pre-process>/nodate] is made, the next
    file is not looked at and the serial is not saved. *)
Theorem raw_without_date_aborts_the_run :
  let st := world [("/photos/inbox/IMG_0001.CR2", Image None);
                   ("/photos/inbox/b.jpg", Image None)] (Some 8) in
  let res := program real_run st in
  res.1 = Raise TypeError
  ∧ (plan sample_cfg "/photos/inbox/IMG_0001.CR2" ".cr2" (set_serial 9 st)).1
    = Ok {| date_taken := None; new_filepath := "/photos/raw/nodate";
            new_name := "9.cr2"; new_jname := "9.jpg" |}
  ∧ fs res.2 !! "/photos/raw/nodate/9.cr2" = Some (File (Image None))
  ∧ fs res.2 !! "/photos/pre/nodate" = None
  ∧ spawned res.2 = []
  ∧ fs res.2 !! "/photos/inbox/b.jpg" = Some (File (Image None))
  ∧ serial_pk res.2 = Some 8.
Proof. vm_compute. repeat split. Qed.

(** C7. For each of the three causes (unreadable file, no tag, a tag that
    does not parse) a raw photo makes a real run end in a [TypeError]: the
    [try] statement falls back to [nodate], but the jpeg step after it
    raises, and the file after the raw photo is never processed. *)
Theorem extraction_failure_on_raw_escapes :
  let run c := program real_run (world [("/photos/inbox/x.cr2", c);
                                        ("/photos/inbox/y.jpg", Image None)] None) in
  ((run Unreadable).1 = Raise TypeError
   ∧ fs (run Unreadable).2 !! "/photos/inbox/y.jpg" = Some (File (Image None)))
  ∧ ((run (Image None)).1 = Raise TypeError
     ∧ fs (run (Image None)).2 !! "/photos/inbox/y.jpg" = Some (File (Image None)))
  ∧ ((run (Image (Some "yesterday"))).1 = Raise TypeError
     ∧ fs (run (Image (Some "yesterday"))).2 !! "/photos/inbox/y.jpg"
       = Some (File (Image None))).
Proof. vm_compute. repeat split. Qed.

(** ** Classification *)

Lemma elem_of_valid_extensions e :
  e ∈ valid_extensions ↔
  e = ".cr2" ∨ e ∈ [".tif"; ".jpg"; ".jpeg"; ".png"].
Proof.
  unfold valid_extensions. rewrite !elem_of_cons. tauto.
Qed.

(** The four branches, each with the condition under which it is taken. *)
Lemma classify_cases e :
  (e = ".cr2" ∧ classify e = RawPhoto)
  ∨ (e ∈ [".tif"; ".jpg"; ".jpeg"; ".png"] ∧ e ≠ ".cr2"
     ∧ classify e = ProcessedPhoto)
  ∨ (e ∈ video_extensions ∧ (e ∉ valid_extensions) ∧ classify e = Video)
  ∨ ((e ∉ valid_extensions ++ video_extensions) ∧ classify e = Unsupported).
Proof.
  assert (Happ : e ∉ valid_extensions → e ∉ video_extensions →
                 e ∉ valid_extensions ++ video_extensions).
  { rewrite elem_of_app. tauto. }
  unfold classify.
  destruct (decide (e ∈ valid_extensions)) as [Hv|Hv].
  - rewrite (bool_decide_eq_true_2 _ Hv). simpl.
    destruct (String.eqb e ".cr2") eqn:E.
    + apply String.eqb_eq in E. by left.
    + apply String.eqb_neq in E. right; left.
      apply elem_of_valid_extensions in Hv. destruct Hv; [done | by repeat split].
  - rewrite (bool_decide_eq_false_2 _ Hv). simpl.
    destruct (decide (e ∈ video_extensions)) as [Hvid|Hvid].
    + rewrite (bool_decide_eq_true_2 _ Hvid). right; right; left. by repeat split.
    + rewrite (bool_decide_eq_false_2 _ Hvid). right; right; right.
      split; [|reflexivity]. by apply Happ.
Qed.

Lemma video_not_valid e : e ∈ video_extensions → e ∉ valid_extensions.
Proof.
  unfold video_extensions, valid_extensions. rewrite !elem_of_cons, !elem_of_nil.
  intros [->|[->|[]]] H; repeat (destruct H as [H|H]; [discriminate|]); exact H.
Qed.

(** C4. The classification of a file only looks at its lowercased
    extension [e]: raw photo exactly for [.cr2], processed photo exactly for
    the other photo extensions, video exactly for the video extensions,
    unsupported exactly for everything else; a raw photo is stored under
    the raw root, a processed photo under the pre-process root. *)
Theorem classification_by_extension (extension : string) :
  let e := PyStr.lower extension in
  (classify e = RawPhoto ↔ e = ".cr2")
  ∧ (classify e = ProcessedPhoto ↔ e ∈ [".tif"; ".jpg"; ".jpeg"; ".png"])
  ∧ (classify e = Video ↔ e ∈ [".mp4"; ".mkv"])
  ∧ (classify e = Unsupported ↔ e ∉ valid_extensions ++ video_extensions)
  ∧ (∀ cfg, classify e = RawPhoto → storage_path cfg e = raw_path cfg)
  ∧ (∀ cfg, classify e = ProcessedPhoto → storage_path cfg e = pre_process cfg)
  ∧ (classify (PyStr.lower ".CR2") = RawPhoto
     ∧ classify (PyStr.lower ".Jpeg") = ProcessedPhoto
     ∧ classify (PyStr.lower ".MKV") = Video
     ∧ classify (PyStr.lower ".gif") = Unsupported).
Proof.
  intros e. generalize e. clear e extension. intros e.
  assert (Hproc : e ∈ [".tif"; ".jpg"; ".jpeg"; ".png"] → e ∈ valid_extensions).
  { intros H. apply elem_of_valid_extensions. by right. }
  assert (Hraw : e = ".cr2" → e ∈ valid_extensions).
  { intros H. apply elem_of_valid_extensions. by left. }
  pose proof (video_not_valid e) as Hvid.
  destruct (classify_cases e)
    as [[H1 C]|[(H1 & H2 & C)|[(H1 & H2 & C)|[H1 C]]]];
    rewrite C; rewrite elem_of_app in *; unfold storage_path;
    (split; [|split; [|split; [|split; [|split; [|split]]]]]);
    try (split; intros ?); try intros ? ?; try done; try tauto;
    try (repeat split; reflexivity).
  - subst e. exfalso. set_solver.
  - subst e. reflexivity.
  - apply String.eqb_neq in H2. by rewrite H2.
Qed.

(** ** Dates in directory and file names *)

Lemma all_from_spec (P : Z → bool) (n : nat) : ∀ lo,
  all_from P n lo = true → ∀ z, lo ≤ z < lo + Z.of_nat n → P z = true.
Proof.
  induction n as [|n IH]; intros lo H z Hz; [lia|].
  cbn [all_from] in H. apply andb_prop in H as [H0 H1].
  destruct (decide (z = lo)) as [->|Hne]; [exact H0|].
  apply (IH (lo + 1) H1). lia.
Qed.

(** [%m], [%d], [%H], [%M], [%S]: two digits. *)
Lemma zfill2_digits n :
  0 ≤ n < 100 → PyStr.zfill 2 (PyStr.of_int n) = digits2 n.
Proof.
  intros Hn. apply String.eqb_eq.
  apply (all_from_spec
           (fun z => String.eqb (PyStr.zfill 2 (PyStr.of_int z)) (digits2 z))
           100 0); [vm_compute; reflexivity | lia].
Qed.

(** [%Y]: the four digits of a year from 1000 on, fewer characters for a
    year below. *)
Lemma year_digits4 n : 1000 ≤ n < 10000 → PyStr.of_int n = digits4 n.
Proof.
  intros Hn. apply String.eqb_eq.
  apply (all_from_spec (fun z => String.eqb (PyStr.of_int z) (digits4 z))
           (Z.to_nat 9000) 1000); [vm_compute; reflexivity | lia].
Qed.

Lemma year_short n : 1 ≤ n < 1000 → (String.length (PyStr.of_int n) < 4)%nat.
Proof.
  intros Hn. apply Nat.ltb_lt.
  apply (all_from_spec (fun z => (String.length (PyStr.of_int z) <? 4)%nat)
           (Z.to_nat 999) 1); [vm_compute; reflexivity | lia].
Qed.

Lemma valid_ranges t :
  PyDatetime.valid t = true →
  (1 ≤ PyDatetime.year t ≤ 9999) ∧ (1 ≤ PyDatetime.month t ≤ 12)
  ∧ (1 ≤ PyDatetime.day t ≤ 31) ∧ (0 ≤ PyDatetime.hour t ≤ 23)
  ∧ (0 ≤ PyDatetime.minute t ≤ 59) ∧ (0 ≤ PyDatetime.second t ≤ 59).
Proof.
  unfold PyDatetime.valid. rewrite !andb_true_iff, !Z.leb_le.
  intros H.
  assert (PyDatetime.days_in_month (PyDatetime.year t) (PyDatetime.month t) ≤ 31).
  { unfold PyDatetime.days_in_month.
    repeat match goal with |- context [if ?b then _ else _] => destruct b end; lia. }
  lia.
Qed.

(** What [strptime] returns is a calendar date and time. *)
Lemma strptime_valid s t :
  PyDatetime.strptime_exif s = Some t → PyDatetime.valid t = true.
Proof.
  unfold PyDatetime.strptime_exif.
  destruct (PyDatetime.rmatch _ s) as [|[g rest] l]; [discriminate|].
  destruct (negb _); [discriminate|].
  match goal with |- context [PyDatetime.valid ?x] =>
    destruct (PyDatetime.valid x) eqn:V end; [|discriminate].
  intros H. inversion H; subst. exact V.
Qed.

Lemma extract_valid st pic t :
  extract_capture_time st pic = Some t → PyDatetime.valid t = true.
Proof.
  unfold extract_capture_time.
  destruct (fs st !! pic) as [[|[|[tag|]]]|]; try discriminate.
  apply strptime_valid.
Qed.

(** [strftime] with the formats of the importer, on a valid date. *)
Lemma strftime_formats t :
  PyDatetime.valid t = true →
  PyDatetime.strftime t "%Y" = year_text t
  ∧ PyDatetime.strftime t "%m" = digits2 (PyDatetime.month t)
  ∧ PyDatetime.strftime t "%Y%m%d_%H%M%S" = printed_stamp t.
Proof.
  intros V. apply valid_ranges in V as (Hy & Hm & Hd & HH & HM & HS).
  assert (EY : PyDatetime.strftime t "%Y"
               = PyStr.of_int (PyDatetime.year t) +:+ "")
    by reflexivity.
  assert (Em : PyDatetime.strftime t "%m"
               = PyStr.zfill 2 (PyStr.of_int (PyDatetime.month t)) +:+ "")
    by reflexivity.
  assert (Es : PyDatetime.strftime t "%Y%m%d_%H%M%S"
               = PyStr.of_int (PyDatetime.year t)
                 +:+ PyStr.zfill 2 (PyStr.of_int (PyDatetime.month t))
                 +:+ PyStr.zfill 2 (PyStr.of_int (PyDatetime.day t))
                 +:+ "_" +:+ PyStr.zfill 2 (PyStr.of_int (PyDatetime.hour t))
                 +:+ PyStr.zfill 2 (PyStr.of_int (PyDatetime.minute t))
                 +:+ PyStr.zfill 2 (PyStr.of_int (PyDatetime.second t)) +:+ "")
    by reflexivity.
  rewrite EY, Em, Es. unfold printed_stamp, year_text. rewrite !append_empty_r.
  rewrite !zfill2_digits by lia.
  repeat split; reflexivity.
Qed.

(** From the year 1000 on the printed stamp is [YYYYMMDD_HHMMSS]. *)
Lemma printed_stamp_padded t :
  1000 ≤ PyDatetime.year t < 10000 →
  year_text t = digits4 (PyDatetime.year t) ∧ printed_stamp t = stamp t.
Proof.
  intros Hy. unfold printed_stamp, stamp, year_text.
  rewrite (year_digits4 _ Hy). split; reflexivity.
Qed.

Lemma digit_not_sep n : Ascii.eqb (digit n) PosixPath.sep = false.
Proof.
  unfold digit. pose proof (Z.mod_pos_bound n 10 ltac:(lia)) as B.
  remember (n mod 10) as k eqn:E. clear E.
  assert (C : k = 0 ∨ k = 1 ∨ k = 2 ∨ k = 3 ∨ k = 4 ∨ k = 5 ∨ k = 6 ∨ k = 7
              ∨ k = 8 ∨ k = 9) by lia.
  repeat destruct C as [->|C]; try subst k; reflexivity.
Qed.

Lemma endswith_append (a b : string) c :
  b ≠ "" → PyStr.endswith (a +:+ b) c = PyStr.endswith b c.
Proof.
  intros Hb. induction a as [|x a IH]; [reflexivity|].
  change (PyStr.endswith (String x (a +:+ b)) c = PyStr.endswith b c).
  destruct (a +:+ b) as [|y s] eqn:E.
  - destruct a; [change (b = "") in E; congruence | discriminate].
  - rewrite <- IH. reflexivity.
Qed.

(** [os.path.join] on a plain directory and a relative component is the
    text [path/b]. *)
Lemma join2_plain path b :
  plain_dir path = true → PyStr.startswith b PosixPath.sep = false →
  PosixPath.join2 path b = under1 path b.
Proof.
  unfold plain_dir, PosixPath.join2, under1. intros Hp ->.
  apply andb_prop in Hp as [H1 H2].
  apply negb_true_iff in H1, H2. rewrite H1, H2. reflexivity.
Qed.

Lemma plain_dir_under1 path b :
  b ≠ "" → PyStr.endswith b PosixPath.sep = false → plain_dir (under1 path b) = true.
Proof.
  intros Hb He. unfold plain_dir, under1. apply andb_true_intro. split.
  - apply negb_true_iff, String.eqb_neq. intros E.
    apply (f_equal String.length) in E. rewrite !append_length in E.
    simpl in E. lia.
  - apply negb_true_iff.
    rewrite endswith_append by (intros E; apply (f_equal String.length) in E;
                                rewrite append_length in E; simpl in E; lia).
    change ("/" +:+ b) with (String "/" b).
    destruct b; [congruence | exact He].
Qed.

Lemma no_sep_endswith b :
  contains b PosixPath.sep = false → PyStr.endswith b PosixPath.sep = false.
Proof.
  induction b as [|x b IH]; [reflexivity|]. cbn [contains]. intros H.
  apply orb_false_elim in H as [Hx Hb].
  destruct b as [|y b]; [exact Hx|].
  change (PyStr.endswith (String y b) PosixPath.sep = false). by apply IH.
Qed.

(** [os.path.split] gives back the two parts of [r/b]. *)
Lemma split_under1 r b :
  plain_dir r = true → contains b PosixPath.sep = false →
  PosixPath.split (under1 r b) = (r, b).
Proof.
  intros Hr Hb. apply andb_prop in Hr as [Hne Hend].
  apply negb_true_iff in Hne, Hend. apply eqb_false_nonempty in Hne.
  unfold PosixPath.split, under1, PyStr.rfind, PyStr.slice_to, PyStr.slice_from.
  change ("/" +:+ b) with (String "/" b).
  rewrite rfind_from_append. cbn [PyStr.rfind_from PosixPath.sep Ascii.eqb Bool.eqb].
  rewrite (rfind_from_absent "/" b) by exact Hb.
  replace (Z.to_nat (0 + Z.of_nat (String.length r) + 1))
    with (String.length (r +:+ "/")) by (rewrite append_length; simpl; lia).
  change (r +:+ String "/" b) with (r +:+ "/" +:+ b).
  rewrite <- append_assoc, take_append, drop_append.
  assert (Hall : PyStr.all_eq (r +:+ "/") PosixPath.sep = false).
  { rewrite all_eq_append. apply andb_false_intro1.
    destruct (PyStr.all_eq r PosixPath.sep) eqn:A; [|reflexivity].
    rewrite (all_eq_endswith r _ Hne A) in Hend. discriminate. }
  assert (Hnonempty : String.eqb (r +:+ "/") "" = false).
  { apply String.eqb_neq. intros E. apply (f_equal String.length) in E.
    rewrite append_length in E. simpl in E. lia. }
  rewrite Hall, Hnonempty. cbn [negb andb].
  change "/" with (String PosixPath.sep "") at 1.
  rewrite rstrip_snoc, rstrip_id by exact Hend. reflexivity.
Qed.

(** The directory that holds [r/b] is [r]. *)
Lemma head_tail_under1 r b :
  plain_dir r = true → b ≠ "" → contains b PosixPath.sep = false →
  Os.head_tail (under1 r b) = (r, b).
Proof.
  intros Hr Hne Hb. unfold Os.head_tail. rewrite (split_under1 r b Hr Hb).
  apply String.eqb_neq in Hne. rewrite Hne. reflexivity.
Qed.

(** [os.path.join(r, a, b)] on a plain directory and two relative, non
    empty components is the text [r/a/b]. *)
Lemma join_under2 r a b :
  plain_dir r = true →
  a ≠ "" → contains a PosixPath.sep = false → PyStr.startswith b PosixPath.sep = false →
  PosixPath.join r [a; b] = under2 r a b.
Proof.
  intros Hr Ha Hsep Hb. unfold PosixPath.join. cbn [fold_left].
  assert (Hstart : PyStr.startswith a PosixPath.sep = false).
  { destruct a; [reflexivity|]. cbn [contains] in Hsep.
    apply orb_false_elim in Hsep. tauto. }
  rewrite (join2_plain r a Hr Hstart). rewrite join2_plain.
  - unfold under1, under2. rewrite !append_assoc. reflexivity.
  - apply plain_dir_under1; [exact Ha | by apply no_sep_endswith].
  - exact Hb.
Qed.

Lemma year_text_no_sep t : contains (year_text t) PosixPath.sep = false.
Proof. apply of_int_chars; [reflexivity | discriminate]. Qed.

Lemma year_text_nonempty t : year_text t ≠ "".
Proof.
  unfold year_text. destruct (of_int_head (PyDatetime.year t)) as (ch & rest & -> & _).
  discriminate.
Qed.

(** C5 as the code has it. For a photo whose capture time [t] could be
    extracted, the plan is: the directory [os.path.join(r, Y, MM)] under the
    storage root [r] of its classification, which for a plain root is the
    text [r/Y/MM], with the year as [%Y] prints it and the two-digit month
    of [t]; the file name [<Y><MMDD_HHMMSS>_<serial><extension>]; and the
    jpeg name with [.jpg] for the extension. From the year 1000 on, [Y] is
    the year in four digits and the name starts with [YYYYMMDD_HHMMSS];
    below, [Y] is shorter: the year is not padded. Planning changes
    nothing. *)
Theorem dated_plan cfg pic extension st t :
  extract_capture_time st pic = Some t →
  let r := storage_path cfg extension in
  let yyyy := year_text t in
  let mm := digits2 (PyDatetime.month t) in
  plan cfg pic extension st =
    (Ok {| date_taken := Some t;
           new_filepath := PosixPath.join r [yyyy; mm];
           new_name := printed_stamp t +:+ "_" +:+ PyStr.of_int (serial st)
                       +:+ extension;
           new_jname := printed_stamp t +:+ "_" +:+ PyStr.of_int (serial st)
                        +:+ ".jpg" |},
     st)
  ∧ String.length mm = 2%nat
  ∧ (1000 ≤ PyDatetime.year t →
     yyyy = digits4 (PyDatetime.year t) ∧ String.length yyyy = 4%nat
     ∧ printed_stamp t = stamp t)
  ∧ (PyDatetime.year t < 1000 → (String.length yyyy < 4)%nat)
  ∧ (plain_dir r = true → PosixPath.join r [yyyy; mm] = under2 r yyyy mm).
Proof.
  intros Ht r yyyy mm.
  pose proof (extract_valid _ _ _ Ht) as V.
  destruct (strftime_formats t V) as (EY & Em & Es).
  apply valid_ranges in V as (Hy & _).
  split; [|split; [|split; [|split]]].
  - rewrite plan_eq, locate_eq, Ht. cbn [snd fst names].
    rewrite EY, Em, Es. reflexivity.
  - reflexivity.
  - intros H1000.
    destruct (printed_stamp_padded t ltac:(lia)) as [E1 E2].
    subst yyyy. rewrite E1. repeat split; assumption.
  - intros Hlow. apply year_short. lia.
  - intros Hr. apply join_under2;
      [exact Hr | apply year_text_nonempty | apply year_text_no_sep
      | apply digit_not_sep].
Qed.

Lemma dated_plan_witness :
  let st := set_serial 7 (world [("/photos/inbox/a.jpg",
                                  Image (Some "2023:04:05 11:22:33"))] None) in
  let t := PyDatetime.mk_datetime 2023 4 5 11 22 33 in
  extract_capture_time st "/photos/inbox/a.jpg" = Some t
  ∧ plan sample_cfg "/photos/inbox/a.jpg" ".jpg" st
    = (Ok {| date_taken := Some t; new_filepath := "/photos/pre/2023/04";
             new_name := "20230405_112233_7.jpg";
             new_jname := "20230405_112233_7.jpg" |}, st).
Proof.
  intros st t.
  assert (H : extract_capture_time st "/photos/inbox/a.jpg" = Some t)
    by (vm_compute; reflexivity).
  split; [exact H|].
  exact (proj1 (dated_plan sample_cfg "/photos/inbox/a.jpg" ".jpg" st t H)).
Defined.

(** C5 as stated fails for a capture time before the year 1000: for
    [0999:04:05 11:22:33], serial 7 and [.jpg] the directory is
    [/photos/pre/999/04], not [/photos/pre/0999/04], and the file name is
    [9990405_112233_7.jpg], which does not start with [YYYYMMDD_HHMMSS]. *)
Lemma year_below_1000_is_not_padded :
  let pic := "/photos/inbox/a.jpg" in
  let st := set_serial 7 (world [(pic, Image (Some "0999:04:05 11:22:33"))] None) in
  let t := PyDatetime.mk_datetime 999 4 5 11 22 33 in
  let res := plan sample_cfg pic ".jpg" st in
  extract_capture_time st pic = Some t
  ∧ res.1 = Ok {| date_taken := Some t; new_filepath := "/photos/pre/999/04";
                  new_name := "9990405_112233_7.jpg";
                  new_jname := "9990405_112233_7.jpg" |}
  ∧ ¬ (∃ dec, res.1 = Ok dec
              ∧ new_filepath dec
                = under2 (storage_path sample_cfg ".jpg")
                    (digits4 (PyDatetime.year t)) (digits2 (PyDatetime.month t)))
  ∧ ¬ (∃ dec, res.1 = Ok dec
              ∧ new_name dec = stamp t +:+ "_" +:+ PyStr.of_int (serial st) +:+ ".jpg").
Proof.
  intros pic st t res.
  assert (E : res.1 = Ok {| date_taken := Some t; new_filepath := "/photos/pre/999/04";
                            new_name := "9990405_112233_7.jpg";
                            new_jname := "9990405_112233_7.jpg" |})
    by (vm_compute; reflexivity).
  split; [vm_compute; reflexivity|]. split; [exact E|].
  split; intros (dec & Hd & H); rewrite E in Hd; inversion Hd; subst dec;
    vm_compute in H; discriminate H.
Qed.

(** C6. For a photo without capture time, whatever the cause, the plan is:
    the directory [os.path.join(r, 'nodate')] under the storage root [r],
    which for a plain root is the text [r/nodate]; the file name
    [<serial><extension>]; the jpeg name [<serial>.jpg]. Planning only
    writes one warning on the console. *)
Theorem undated_plan cfg pic extension st :
  extract_capture_time st pic = None →
  let r := storage_path cfg extension in
  ∃ warning,
    plan cfg pic extension st =
      (Ok {| date_taken := None;
             new_filepath := PosixPath.join r ["nodate"];
             new_name := PyStr.of_int (serial st) +:+ extension;
             new_jname := PyStr.of_int (serial st) +:+ ".jpg" |},
       set_console (console st ++ [(WARNING, warning)]) st)
    ∧ (plain_dir r = true → PosixPath.join r ["nodate"] = under1 r "nodate").
Proof.
  intros Ht r. eexists. split.
  - rewrite plan_eq, locate_eq, Ht. cbn [snd fst names]. reflexivity.
  - intros Hr. unfold PosixPath.join. cbn [fold_left].
    apply join2_plain; [exact Hr | reflexivity].
Qed.

Lemma undated_plan_witness :
  let st := set_serial 9 (world [("/photos/inbox/IMG_0009.CR2", Image None)] None) in
  extract_capture_time st "/photos/inbox/IMG_0009.CR2" = None
  ∧ ∃ warning,
      plan sample_cfg "/photos/inbox/IMG_0009.CR2" ".cr2" st
      = (Ok {| date_taken := None; new_filepath := "/photos/raw/nodate";
               new_name := "9.cr2"; new_jname := "9.jpg" |},
         set_console (console st ++ [(WARNING, warning)]) st).
Proof.
  intros st.
  assert (H : extract_capture_time st "/photos/inbox/IMG_0009.CR2" = None)
    by (vm_compute; reflexivity).
  split; [exact H|].
  destruct (undated_plan sample_cfg "/photos/inbox/IMG_0009.CR2" ".cr2" st H)
    as (warning & E & _).
  exists warning. exact E.
Defined.

(** ** The extension of the new name *)

(** The characters of the stem of a new name: digits, the underscore and,
    for a negative serial, the minus sign. *)
Lemma stem_chars taken s c :
  PyDatetime.is_digit c = false → c ≠ "-"%char → c ≠ "_"%char →
  contains (stem taken s) c = false.
Proof.
  intros Hd Hm Hu.
  assert (Hs : ∀ n, contains (PyStr.of_int n) c = false)
    by (intros n; apply of_int_chars; assumption).
  destruct taken as [t|]; [|apply Hs].
  unfold stem, printed_stamp, year_text, digits2.
  rewrite !contains_append, !Hs. cbn [contains].
  rewrite !digit_neq by exact Hd.
  assert (Ascii.eqb "_" c = false) as -> by (apply Ascii.eqb_neq; congruence).
  reflexivity.
Qed.

(** The stem of a new name has no dot. *)
Lemma stem_no_dot taken s : contains (stem taken s) "." = false.
Proof. apply stem_chars; [reflexivity | discriminate | discriminate]. Qed.

Lemma stem_no_sep taken s : contains (stem taken s) PosixPath.sep = false.
Proof. apply stem_chars; [reflexivity | discriminate | discriminate]. Qed.

Lemma stem_nonempty taken s : stem taken s ≠ "".
Proof.
  destruct taken as [t|]; cbn [stem].
  - unfold printed_stamp, year_text.
    destruct (of_int_head (PyDatetime.year t)) as (ch & rest & -> & _). discriminate.
  - destruct (of_int_head s) as (ch & rest & -> & _). discriminate.
Qed.

Lemma names_stem taken s extension :
  (∀ t, taken = Some t → PyDatetime.valid t = true) →
  names taken s extension
  = (stem taken s +:+ extension, stem taken s +:+ ".jpg").
Proof.
  intros V. destruct taken as [t|]; [|reflexivity].
  cbn [names stem]. destruct (strftime_formats t (V t eq_refl)) as (_ & _ & ->).
  rewrite !append_assoc. reflexivity.
Qed.

Lemma valid_extension_starts_with_dot e :
  e ∈ valid_extensions → PyStr.startswith e "." = true.
Proof.
  unfold valid_extensions. rewrite !elem_of_cons, elem_of_nil.
  intros [->|[->|[->|[->|[->|[]]]]]]; reflexivity.
Qed.

(** A photo extension is a dot followed by letters and digits. *)
Lemma valid_extension_shape e :
  e ∈ valid_extensions →
  ∃ rest, e = String "." rest
          ∧ contains rest "." = false ∧ contains rest PosixPath.sep = false.
Proof.
  unfold valid_extensions. rewrite !elem_of_cons, elem_of_nil.
  intros [->|[->|[->|[->|[->|[]]]]]]; eexists; repeat split; reflexivity.
Qed.

(** [os.path.splitext] of a name without dots or separators followed by an
    extension gives back the two. *)
Lemma splitext_stem a rest :
  a ≠ "" → contains a "." = false → contains a PosixPath.sep = false →
  contains rest "." = false → contains rest PosixPath.sep = false →
  PosixPath.splitext (a +:+ String "." rest) = (a, String "." rest).
Proof.
  intros Hne Hdot Hsep Hrdot Hrsep.
  unfold PosixPath.splitext, PyStr.rfind, PyStr.slice, PyStr.slice_to, PyStr.slice_from.
  rewrite !rfind_from_append.
  cbn [PyStr.rfind_from PosixPath.sep PosixPath.extsep Ascii.eqb Bool.eqb].
  rewrite (rfind_from_absent "/" a) by exact Hsep.
  rewrite (rfind_from_absent "/" rest) by exact Hrsep.
  rewrite (rfind_from_absent "." rest) by exact Hrdot.
  assert (Hlt : (-1 <? 0 + Z.of_nat (String.length a)) = true)
    by (apply Z.ltb_lt; lia).
  rewrite Hlt.
  replace (Z.to_nat (0 + Z.of_nat (String.length a) - (-1 + 1)))
    with (String.length a) by lia.
  replace (Z.to_nat (0 + Z.of_nat (String.length a)))
    with (String.length a) by lia.
  change (Z.to_nat (-1 + 1)) with 0%nat.
  assert (Hd0 : ∀ x, PyStr.drop 0 x = x) by (intros [|? ?]; reflexivity).
  rewrite Hd0, take_append, drop_append.
  assert (Hall : PyStr.all_eq a PosixPath.extsep = false).
  { destruct a as [|x a]; [congruence|]. cbn [contains] in Hdot.
    apply orb_false_elim in Hdot as [Hx _]. cbn [PyStr.all_eq].
    unfold PosixPath.extsep. rewrite Hx. reflexivity. }
  rewrite Hall. reflexivity.
Qed.

(** C9. For a file classified as a photo, the loop body plans with the
    lowercased extension and hands that plan to [apply]; the new name is
    the stem (the date stamp, if any, and the serial) followed by that
    lowercased extension, which is one of the photo extensions and is what
    [os.path.splitext] finds as the extension of the new name. *)
Theorem renamed_extension_is_lowercased args cfg pic st :
  is_photo (classify_path pic) = true →
  let extension := PyStr.lower (PosixPath.splitext pic).2 in
  let s := serial st + 1 in
  ∃ dec st2,
    plan cfg pic extension (set_serial s st) = (Ok dec, st2)
    ∧ process_pic args cfg pic st = apply args cfg pic extension dec st2
    ∧ new_name dec = stem (date_taken dec) s +:+ extension
    ∧ PosixPath.splitext (new_name dec) = (stem (date_taken dec) s, extension)
    ∧ extension ∈ valid_extensions.
Proof.
  intros Hphoto extension s. unfold classify_path in Hphoto.
  assert (Hext : extension ∈ valid_extensions).
  { fold extension in Hphoto.
    destruct (classify_cases extension)
      as [[H1 C]|[(H1 & H2 & C)|[(H1 & H2 & C)|[H1 C]]]];
      rewrite C in Hphoto; try discriminate.
    - apply elem_of_valid_extensions. by left.
    - apply elem_of_valid_extensions. by right. }
  rewrite plan_eq. cbn zeta. eexists _, _. split; [reflexivity|].
  assert (Hname : (names (extract_capture_time (set_serial s st) pic) s extension).1
                  = stem (extract_capture_time (set_serial s st) pic) s +:+ extension).
  { rewrite names_stem by (intros t Ht; eapply extract_valid, Ht). reflexivity. }
  split; [|split; [|split]].
  - unfold process_pic, bind at 1, modify. fold s.
    destruct (PosixPath.splitext pic) as [original_name e] eqn:Es.
    cbn [snd] in *. cbv beta zeta. subst extension.
    destruct (classify (PyStr.lower e)); try discriminate;
      unfold bind at 1; rewrite plan_eq; reflexivity.
  - cbn [new_name date_taken]. change (serial (set_serial s st)) with s.
    exact Hname.
  - cbn [new_name date_taken]. change (serial (set_serial s st)) with s.
    rewrite Hname.
    destruct (valid_extension_shape extension Hext) as (rest & -> & Hd & Hs).
    apply splitext_stem;
      [apply stem_nonempty | apply stem_no_dot | apply stem_no_sep | exact Hd | exact Hs].
  - exact Hext.
Qed.

Lemma renamed_extension_is_lowercased_witness :
  let pic := "/photos/inbox/IMG_0007.JPG" in
  let st := world [(pic, Image None)] (Some 6) in
  is_photo (classify_path pic) = true
  ∧ ∃ dec st2,
      plan sample_cfg pic ".jpg" (set_serial (serial st + 1) st) = (Ok dec, st2)
      ∧ process_pic real_run sample_cfg pic st
        = apply real_run sample_cfg pic ".jpg" dec st2
      ∧ new_name dec = stem (date_taken dec) (serial st + 1) +:+ ".jpg"
      ∧ PosixPath.splitext (new_name dec)
        = (stem (date_taken dec) (serial st + 1), ".jpg")
      ∧ ".jpg" ∈ valid_extensions.
Proof.
  intros pic st. split; [reflexivity|].
  exact (renamed_extension_is_lowercased real_run sample_cfg pic st eq_refl).
Defined.

(** ** The [--get-serial] short circuit *)

(** C8. With [--get-serial] the program logs the serial it read from the
    pickle file ([0] without one) and exits: with status 0 after
    [The current serial number is: ...] when the configuration is there;
    with status 1, after the startup line [serial number starting at: ...]
    alone, when [importer.ini] is missing. In both cases no file was
    listed, counted, moved or rejected, no process was started, and the
    filesystem and the pickle file are as they were. *)
Theorem get_serial_only_reports args st :
  get_serial args = true →
  let res := program args st in
  let n := PyStr.of_int (persisted st) in
  In (INFO, "serial number starting at: " +:+ n) (console res.2)
  ∧ match importer_ini st with
    | Some _ =>
        res.1 = Raise (SystemExit 0)
        ∧ last (console res.2) = Some (INFO, "The current serial number is: " +:+ n)
    | None => res.1 = Raise (SystemExit 1)
    end
  ∧ fs res.2 = fs st
  ∧ serial_pk res.2 = serial_pk st
  ∧ spawned res.2 = spawned st
  ∧ (allpics res.2 = [] ∧ reject_count res.2 = 0 ∧ serial res.2 = persisted st).
Proof.
  intros Hget. unfold program, startup, main, persisted.
  unfold bind, modify, gets, log, raise, ret. simpl.
  destruct (serial_pk st) as [pk|] eqn:Hpk; simpl;
    destruct (importer_ini st) as [cfg|] eqn:Hini; simpl;
    rewrite ?Hget; simpl; rewrite ?Hpk;
    (split; [rewrite <- ?app_assoc; apply in_or_app; right; simpl; auto|]);
    repeat split; try reflexivity;
    rewrite ?last_snoc; try reflexivity.
Qed.

Lemma get_serial_only_reports_witness :
  let args := {| dryrun := false; debug := false; get_serial := true |} in
  let st := world [("/photos/inbox/a.jpg", Image None)] (Some 41) in
  get_serial args = true
  ∧ (program args st).1 = Raise (SystemExit 0)
  ∧ last (console (program args st).2)
    = Some (INFO, "The current serial number is: " +:+ PyStr.of_int (persisted st))
  ∧ fs (program args st).2 = fs st
  ∧ serial_pk (program args st).2 = serial_pk st.
Proof.
  intros args st. split; [reflexivity|].
  destruct (get_serial_only_reports args st eq_refl)
    as (_ & (E & L) & F & P & _).
  repeat split; assumption.
Defined.

(** ** Files without an extension *)

(** [shutil.move] of a regular file onto a path that is no directory and
    lies in a directory. *)
Lemma shutil_move_file src dst c st :
  fs st !! src = Some (File c) → fs st !! dst ≠ Some Dir →
  fs st !! (Os.head_tail dst).1 = Some Dir →
  shutil_move src dst st
  = (Ok tt, set_fs (<[dst := File c]> (delete src (fs st))) st).
Proof.
  intros Hs Hd Hp. unfold shutil_move, Os.path_isdir, Os.rename.
  unfold bind at 1, gets at 1.
  assert (R : Os.rename src dst st
              = (Ok tt, set_fs (<[dst := File c]> (delete src (fs st))) st)).
  { unfold Os.rename, bind at 1, gets at 1. rewrite Hs.
    unfold bind at 1. rewrite (parent_check_ok dst st (or_intror Hp)).
    unfold bind, gets, modify.
    destruct (fs st !! dst) as [[|c']|]; [congruence | reflexivity..]. }
  destruct (fs st !! dst) as [[|c']|] eqn:E; [congruence | exact R..].
Qed.

(** [shutil.move] into [r/b], where [r] is a directory. *)
Lemma shutil_move_under1 src r b c st :
  fs st !! src = Some (File c) →
  plain_dir r = true → b ≠ "" → contains b PosixPath.sep = false →
  fs st !! r = Some Dir →
  fs st !! under1 r b ≠ Some Dir →
  shutil_move src (under1 r b) st
  = (Ok tt, set_fs (<[under1 r b := File c]> (delete src (fs st))) st).
Proof.
  intros Hs Hr Hb Hsep Hdir Hdst. apply shutil_move_file; [exact Hs | exact Hdst|].
  rewrite (head_tail_under1 r b Hr Hb Hsep). exact Hdir.
Qed.

Lemma under1_longer r b : (String.length r < String.length (under1 r b))%nat.
Proof. unfold under1. rewrite !append_length. simpl. lia. Qed.




(** * Further properties of the importer *)

(** ** The run as a whole *)

(** [main] without [--get-serial], in terms of the loop over the files. *)
Lemma main_eq args cfg st :
  get_serial args = false →
  let st1 :=
    set_allpics (allpics st ++ walk_files st (p_inbox cfg))
      (set_console (console st ++ [(INFO, "Welcome to Meili image_importer")]) st) in
  main args cfg st =
  match for_each (allpics st1) (process_pic args cfg) st1 with
  | (Ok _, st2) =>
      if dryrun args
      then (Ok tt, set_console (console st2 ++ [(INFO, "ACTION: Dumping pickle")]) st2)
      else (Ok tt, set_serial_pk (Some (serial st2)) st2)
  | (Raise e, st2) => (Raise e, st2)
  end.
Proof.
  intros Hget st1. unfold main, process. rewrite Hget. subst st1.
  unfold bind, log, modify, gets, ret, pickle_dump.
  cbn [fst snd allpics set_allpics set_console walk_files console negb].
  match goal with
  | |- context [for_each ?l ?b ?s] => destruct (for_each l b s) as [[[]|e] st2]
  end; [destruct (dryrun args)|]; reflexivity.
Qed.

Lemma process_pic_keeps_pickle args cfg pic :
  preserves (keeps serial_pk) (process_pic args cfg pic).
Proof.
  intros st r st' H.
  apply (process_pic_keeps serial_pk) in H; try reflexivity. exact H.
Qed.

Lemma loop_keeps_pickle args cfg pics :
  preserves (keeps serial_pk) (for_each pics (process_pic args cfg)).
Proof.
  apply preserves_for_each;
    [apply keeps_refl | apply keeps_trans | apply process_pic_keeps_pickle].
Qed.

(** X1. A real run that returns has saved the serial it started from plus
    the number of files in the inbox, which is where the next run starts;
    a run ended by an exception has not written the pickle file, so the
    serials it used are used again. *)
Theorem real_run_saves_the_serial args cfg st :
  dryrun args = false →
  get_serial args = false →
  importer_ini st = Some cfg →
  let N := Z.of_nat (length (walk_files st (p_inbox cfg))) in
  match program args st with
  | (Ok _, st') =>
      serial_pk st' = Some (persisted st + N) ∧ persisted st' = persisted st + N
  | (Raise _, st') => serial_pk st' = serial_pk st
  end.
Proof.
  intros Hdry Hget Hini N.
  destruct (startup_ok st cfg Hini)
    as (st0 & E0 & Hs & Hall & _ & _ & Hwalk & Hpk & _).
  unfold program, bind. rewrite E0, (main_eq args cfg st0 Hget).
  cbv zeta. rewrite Hall, Hwalk, Hdry. cbn [app allpics set_allpics].
  match goal with
  | |- context [for_each ?l ?b ?s] =>
      pose proof (for_each_serial args cfg l s) as L;
      pose proof (loop_keeps_pickle args cfg l s) as K;
      destruct (for_each l b s) as [[[]|e] st2]
  end.
  - cbn [serial_pk set_serial_pk]. unfold persisted at 2. cbn [serial_pk set_serial_pk default].
    cbn [serial set_allpics set_console] in L. rewrite L, Hs. auto.
  - specialize (K _ _ eq_refl). unfold keeps in K. cbn [serial_pk set_allpics set_console] in K.
    congruence.
Qed.

Lemma real_run_saves_the_serial_witness :
  let st := world [("/photos/inbox/a.jpg", Image None);
                   ("/photos/inbox/notes", Image None)] (Some 10) in
  dryrun real_run = false ∧ get_serial real_run = false
  ∧ importer_ini st = Some sample_cfg
  ∧ match program real_run st with
    | (Ok _, st') =>
        serial_pk st'
        = Some (persisted st + Z.of_nat (length (walk_files st (p_inbox sample_cfg))))
        ∧ persisted st'
          = persisted st + Z.of_nat (length (walk_files st (p_inbox sample_cfg)))
    | (Raise _, st') => serial_pk st' = serial_pk st
    end.
Proof.
  split; [reflexivity|]. split; [reflexivity|]. split; [reflexivity|].
  exact (real_run_saves_the_serial real_run sample_cfg
           (world [("/photos/inbox/a.jpg", Image None);
                   ("/photos/inbox/notes", Image None)] (Some 10))
           eq_refl eq_refl eq_refl).
Defined.

(** X2. A dry run, however it ends, starts no process, leaves the pickle
    file as it is and every regular file where it is, with its content;
    directories that existed still exist. (Directories may be added:
    [reject] and [reject_video] make theirs.) It returns when the
    configuration is there and the reject and the video directory are there
    or can be made. *)
Theorem dry_run_moves_no_file args st :
  dryrun args = true →
  let res := program args st in
  spawned res.2 = spawned st
  ∧ serial_pk res.2 = serial_pk st
  ∧ (∀ p c, fs res.2 !! p = Some (File c) ↔ fs st !! p = Some (File c))
  ∧ (∀ p, fs st !! p = Some Dir → fs res.2 !! p = Some Dir)
  ∧ (∀ cfg, importer_ini st = Some cfg → get_serial args = false →
            reject_dirs_creatable cfg st = true → res.1 = Ok tt).
Proof.
  intros Hdry res.
  destruct (dryrun_program_frame args Hdry st res.1 res.2) as (S & P & F);
    [subst res; destruct (program args st); reflexivity|].
  split; [exact S|]. split; [exact P|]. split; [|split].
  - intros p c. destruct (F p) as [A|[A B]]; rewrite ?A; [tauto|].
    rewrite B. split; discriminate.
  - intros p Hp. destruct (F p) as [A|[A B]]; congruence.
  - intros cfg Hini Hget Hc. subst res.
    destruct (startup_ok st cfg Hini)
      as (st0 & E0 & _ & _ & _ & Hfs & _).
    unfold program, bind. rewrite E0, (main_eq args cfg st0 Hget). cbv zeta.
    match goal with
    | |- context [for_each ?l ?b ?s] =>
        destruct (dryrun_loop_returns args cfg Hdry l s) as (st2 & ->)
    end.
    + unfold reject_dirs_creatable, creatable in *.
      cbn [fs set_allpics set_console]. rewrite Hfs. exact Hc.
    + rewrite Hdry. reflexivity.
Qed.

Lemma dry_run_moves_no_file_witness :
  let st := world [("/photos/inbox/a.cr2", Image None);
                   ("/photos/inbox/clip.mp4", Unreadable)] (Some 3) in
  dryrun dry_run = true
  ∧ importer_ini st = Some sample_cfg
  ∧ reject_dirs_creatable sample_cfg st = true
  ∧ (program dry_run st).1 = Ok tt
  ∧ spawned (program dry_run st).2 = spawned st
  ∧ serial_pk (program dry_run st).2 = serial_pk st
  ∧ (∀ p c, fs (program dry_run st).2 !! p = Some (File c)
            ↔ fs st !! p = Some (File c)).
Proof.
  intros st.
  assert (Hc : reject_dirs_creatable sample_cfg st = true)
    by (vm_compute; reflexivity).
  destruct (dry_run_moves_no_file dry_run st eq_refl) as (S & P & F & _ & R).
  split; [reflexivity|]. split; [reflexivity|]. split; [exact Hc|].
  split; [exact (R sample_cfg eq_refl eq_refl Hc)|].
  split; [exact S|]. split; [exact P | exact F].
Defined.

(** X3. Without [importer.ini] the program stops at startup with exit
    status 1, whatever the flags: it has logged the missing file as
    critical and touched neither the filesystem nor the pickle file. *)
Theorem missing_config_stops_at_startup args st :
  importer_ini st = None →
  ∃ st', program args st = (Raise (SystemExit 1), st')
         ∧ last (console st')
           = Some (CRITICAL, "Missing " +:+ config_file st +:+ ". Please add "
                             +:+ config_file st)
         ∧ fs st' = fs st ∧ serial_pk st' = serial_pk st
         ∧ spawned st' = spawned st.
Proof.
  intros Hini. unfold program, startup, bind, modify, gets, log, raise, ret.
  simpl. destruct (serial_pk st) as [n|] eqn:Hpk; simpl; rewrite Hini; simpl;
    eexists; (split; [reflexivity|]); simpl; rewrite ?Hpk;
    repeat split; apply last_snoc.
Qed.

Lemma missing_config_stops_at_startup_witness :
  let st := set_fs (fs (world [("/photos/inbox/a.jpg", Image None)] (Some 3)))
              {| serial := 0; reject_count := 0; allpics := []; fs := ∅;
                 walk_files := fun _ => ["/photos/inbox/a.jpg"];
                 serial_pk := Some 3; config_file := "/opt/meili/importer.ini";
                 importer_ini := None; console := []; commands := [];
                 spawned := [] |} in
  importer_ini st = None
  ∧ ∃ st', program real_run st = (Raise (SystemExit 1), st')
           ∧ last (console st')
             = Some (CRITICAL, "Missing " +:+ config_file st +:+ ". Please add "
                               +:+ config_file st)
           ∧ fs st' = fs st ∧ serial_pk st' = serial_pk st
           ∧ spawned st' = spawned st.
Proof.
  intros st. split; [reflexivity|].
  exact (missing_config_stops_at_startup real_run st eq_refl).
Defined.

(** ** The try statement *)

(** X4. No exception leaves the [try] statement around the EXIF date: for
    every file and state it returns; it returns a capture time exactly when
    the file can be read, has the tag and the tag parses; and every failure,
    whatever its cause, gives the same result, the [nodate] directory and
    one warning on the console. *)
Theorem try_statement_never_raises pic storage st :
  ∃ taken dir st',
    locate pic storage st = (Ok (taken, dir), st')
    ∧ taken = extract_capture_time st pic
    ∧ fs st' = fs st ∧ spawned st' = spawned st ∧ serial st' = serial st
    ∧ match taken with
      | Some t =>
          st' = st
          ∧ ∃ tag, fs st !! pic = Some (File (Image (Some tag)))
                   ∧ PyDatetime.strptime_exif tag = Some t
      | None =>
          dir = PosixPath.join storage ["nodate"]
          ∧ ∃ warning, console st' = console st ++ [(WARNING, warning)]
      end.
Proof.
  rewrite locate_eq. unfold extract_capture_time.
  destruct (fs st !! pic) as [[|[|[tag|]]]|] eqn:E;
    try (eexists _, _, _; repeat split; eexists; reflexivity).
  destruct (PyDatetime.strptime_exif tag) as [t|] eqn:Et.
  - eexists _, _, _. repeat split. exists tag. split; [reflexivity | exact Et].
  - eexists _, _, _; repeat split; eexists; reflexivity.
Qed.

(** ** Serials in file names *)

(** Text without a dot, followed by text that starts with a dot, can be
    split in one way only. *)
Lemma split_at_dot a b e1 e2 :
  contains a "." = false → contains b "." = false →
  PyStr.startswith e1 "." = true → PyStr.startswith e2 "." = true →
  a +:+ e1 = b +:+ e2 → a = b.
Proof.
  revert b. induction a as [|x a IH]; intros [|y b] Ha Hb H1 H2 E.
  - reflexivity.
  - exfalso. change (e1 = String y (b +:+ e2)) in E. subst e1.
    cbn [PyStr.startswith contains] in H1, Hb. rewrite H1 in Hb. discriminate.
  - exfalso. change (String x (a +:+ e1) = e2) in E. subst e2.
    cbn [PyStr.startswith contains] in H2, Ha. rewrite H2 in Ha. discriminate.
  - change (String x (a +:+ e1) = String y (b +:+ e2)) in E.
    inversion E as [[Hxy E']]. subst y. f_equal.
    cbn [contains] in Ha, Hb. apply orb_false_elim in Ha as [_ Ha], Hb as [_ Hb].
    eapply IH; eassumption.
Qed.

(** What follows the last occurrence of a character is determined by the
    whole text. *)
Lemma after_last a1 a2 b1 b2 c :
  contains b1 c = false → contains b2 c = false →
  a1 +:+ String c b1 = a2 +:+ String c b2 → b1 = b2.
Proof.
  assert (Hin : ∀ a b, contains (a +:+ String c b) c = true).
  { intros a b. rewrite contains_append. cbn [contains].
    rewrite Ascii.eqb_refl. apply orb_true_r. }
  revert a2. induction a1 as [|x a1 IH]; intros [|y a2] H1 H2 E.
  - change (String c b1 = String c b2) in E. by inversion E.
  - exfalso. change (String c b1 = String y (a2 +:+ String c b2)) in E.
    inversion E; subst. rewrite Hin in H1. discriminate.
  - exfalso. change (String x (a1 +:+ String c b1) = String c b2) in E.
    inversion E; subst. rewrite Hin in H2. discriminate.
  - rewrite !append_cons in E. inversion E. eapply IH; eassumption.
Qed.

(** The serial is what follows the last underscore of a stem, or the whole
    stem when there is none. *)
Lemma stem_inj taken1 taken2 s1 s2 :
  stem taken1 s1 = stem taken2 s2 → s1 = s2.
Proof.
  assert (U : ∀ s, contains (PyStr.of_int s) "_" = false)
    by (intros s; apply of_int_chars; [reflexivity | discriminate]).
  assert (S : ∀ t s, contains (stem (Some t) s) "_" = true).
  { intros t s. unfold stem. rewrite !contains_append.
    cbn [contains Ascii.eqb Bool.eqb orb]. rewrite !orb_true_r. reflexivity. }
  destruct taken1 as [t1|], taken2 as [t2|]; intros E.
  - cbn [stem] in E.
    change (printed_stamp t1 +:+ String "_" (PyStr.of_int s1)
            = printed_stamp t2 +:+ String "_" (PyStr.of_int s2)) in E.
    apply after_last in E; [apply of_int_inj, E | apply U | apply U].
  - exfalso. pose proof (S t1 s1) as C. rewrite E in C. cbn [stem] in C.
    rewrite U in C. discriminate.
  - exfalso. pose proof (S t2 s2) as C. rewrite <- E in C. cbn [stem] in C.
    rewrite U in C. discriminate.
  - apply of_int_inj, E.
Qed.

(** X5. Two photos planned under different serials never get the same new
    name, nor the same jpeg name, whatever their capture times and
    extensions: the serial can be read back from either name. *)
Theorem different_serials_different_names cfg pic1 pic2 e1 e2 st1 st2 :
  e1 ∈ valid_extensions → e2 ∈ valid_extensions →
  serial st1 ≠ serial st2 →
  ∃ d1 d2 st1' st2',
    plan cfg pic1 e1 st1 = (Ok d1, st1')
    ∧ plan cfg pic2 e2 st2 = (Ok d2, st2')
    ∧ new_name d1 ≠ new_name d2
    ∧ new_jname d1 ≠ new_jname d2.
Proof.
  intros H1 H2 Hs. rewrite !plan_eq. cbv zeta. eexists _, _, _, _.
  split; [reflexivity|]. split; [reflexivity|]. cbn [new_name new_jname].
  rewrite !names_stem by (intros t Ht; eapply extract_valid, Ht).
  cbn [fst snd]. split; intros E; apply Hs.
  - eapply stem_inj, split_at_dot; [apply stem_no_dot | apply stem_no_dot | | | exact E];
      apply valid_extension_starts_with_dot; assumption.
  - eapply stem_inj, split_at_dot; [apply stem_no_dot | apply stem_no_dot | | | exact E];
      reflexivity.
Qed.

Lemma different_serials_different_names_witness :
  let w := world [("/photos/inbox/a.jpg", Image (Some "2023:04:05 11:22:33"));
                  ("/photos/inbox/b.cr2", Image (Some "2023:04:05 11:22:33"))] None in
  ".jpg" ∈ valid_extensions ∧ ".cr2" ∈ valid_extensions
  ∧ serial (set_serial 1 w) ≠ serial (set_serial 2 w)
  ∧ ∃ d1 d2 st1' st2',
      plan sample_cfg "/photos/inbox/a.jpg" ".jpg" (set_serial 1 w) = (Ok d1, st1')
      ∧ plan sample_cfg "/photos/inbox/b.cr2" ".cr2" (set_serial 2 w) = (Ok d2, st2')
      ∧ new_name d1 ≠ new_name d2
      ∧ new_jname d1 ≠ new_jname d2.
Proof.
  intros w.
  assert (H1 : ".jpg" ∈ valid_extensions) by (apply elem_of_valid_extensions; right; set_solver).
  assert (H2 : ".cr2" ∈ valid_extensions) by (apply elem_of_valid_extensions; by left).
  assert (H3 : serial (set_serial 1 w) ≠ serial (set_serial 2 w)) by discriminate.
  split; [exact H1|]. split; [exact H2|]. split; [exact H3|].
  exact (different_serials_different_names sample_cfg "/photos/inbox/a.jpg"
           "/photos/inbox/b.cr2" ".jpg" ".cr2" (set_serial 1 w) (set_serial 2 w)
           H1 H2 H3).
Defined.

(** ** Moving photos *)

Lemma no_sep_startswith b :
  contains b PosixPath.sep = false → PyStr.startswith b PosixPath.sep = false.
Proof.
  destruct b as [|x b]; [reflexivity|]. cbn [contains PyStr.startswith].
  intros H. apply orb_false_elim in H. tauto.
Qed.

Lemma creatable_dir st p : fs st !! p = Some Dir → creatable st p = true.
Proof. intros H. unfold creatable. rewrite creatable_rec_eq, H. reflexivity. Qed.


Lemma when_makedirs_adds_dirs b p st r st' :
  when b (Os.makedirs p) st = (r, st') → adds_dirs (String.length p) st st'.
Proof.
  destruct b; cbn [when].
  - apply makedirs_rec_adds_dirs.
  - unfold ret. intros H. inversion H; subst. apply adds_dirs_refl.
Qed.

Lemma adds_dirs_file b st st' p c :
  adds_dirs b st st' → fs st !! p = Some (File c) → fs st' !! p = Some (File c).
Proof. intros [_ F] H. destruct (F p) as [A|(A & _)]; congruence. Qed.

Lemma adds_dirs_file_back b st st' p c :
  adds_dirs b st st' → fs st' !! p = Some (File c) → fs st !! p = Some (File c).
Proof. intros [_ F] H. destruct (F p) as [A|(_ & A & _)]; congruence. Qed.

Lemma adds_dirs_not_dir b st st' p :
  adds_dirs b st st' → (b < String.length p)%nat →
  fs st !! p ≠ Some Dir → fs st' !! p ≠ Some Dir.
Proof. intros [_ F] Hb H. destruct (F p) as [A|(_ & _ & A)]; [congruence | lia]. Qed.


(** [apply] in a real run, for a file that is there, a directory that is
    there or can be made, and a name to which the file can be moved: the
    directory is made if need be, the file is moved, and what is left is
    the jpeg step of a raw photo. *)
Lemma apply_real_run args cfg pic extension dec c st :
  dryrun args = false →
  fs st !! pic = Some (File c) →
  plain_dir (new_filepath dec) = true →
  new_name dec ≠ "" → contains (new_name dec) PosixPath.sep = false →
  creatable st (new_filepath dec) = true →
  let dst := under1 (new_filepath dec) (new_name dec) in
  fs st !! dst ≠ Some Dir →
  ∃ st1,
    adds_dirs (String.length (new_filepath dec)) st st1
    ∧ fs st1 !! new_filepath dec = Some Dir
    ∧ apply args cfg pic extension dec st
      = (if String.eqb extension ".cr2" then
           bind (Os.path_exists (raw_path cfg)) (fun raw_exists =>
             bind (when (negb raw_exists) (Os.makedirs (raw_path cfg))) (fun _ =>
               bind (datetime_strftime (date_taken dec) "%Y") (fun y =>
                 subprocess_run ["darktable-cli"; dst;
                                 PosixPath.join (pre_process cfg) [y; new_jname dec]])))
         else ret tt)
          (set_fs (<[dst := File c]> (delete pic (fs st1))) st1).
Proof.
  intros Hdry Hpic Hplain Hne Hsep Hcre dst Hdst. unfold apply. rewrite Hdry. cbn [negb].
  assert (Hjoin : PosixPath.join (new_filepath dec) [new_name dec] = dst).
  { unfold PosixPath.join. cbn [fold_left].
    apply join2_plain; [exact Hplain | apply no_sep_startswith, Hsep]. }
  rewrite Hjoin.
  unfold bind at 1, Os.path_exists at 1, gets.
  destruct (ensure_dir_spec (new_filepath dec) st Hcre) as (st1 & E1 & A1 & Hdir1).
  unfold bind at 1. rewrite E1.
  assert (Hpic1 : fs st1 !! pic = Some (File c))
    by (eapply adds_dirs_file; eassumption).
  assert (Hdst1 : fs st1 !! dst ≠ Some Dir).
  { eapply adds_dirs_not_dir; [exact A1 | apply under1_longer | exact Hdst]. }
  exists st1. split; [exact A1|]. split; [exact Hdir1|].
  unfold bind at 1.
  pose proof (shutil_move_under1 pic _ _ c st1 Hpic1 Hplain Hne Hsep Hdir1 Hdst1)
    as Emove.
  fold dst in Emove. rewrite Emove. reflexivity.
Qed.

(** What a move leaves alone. *)
Lemma moved_lookup st1 pic dst c p :
  p ≠ dst → p ≠ pic →
  fs (set_fs (<[dst := File c]> (delete pic (fs st1))) st1) !! p = fs st1 !! p.
Proof.
  intros H1 H2. cbn [fs set_fs].
  rewrite lookup_insert_ne by congruence. by rewrite lookup_delete_ne by congruence.
Qed.

Lemma classify_photo_eqb e :
  is_photo (classify e) = true →
  String.eqb e ".cr2" = match classify e with RawPhoto => true | _ => false end.
Proof.
  destruct (classify_cases e) as [[H1 C]|[(H1 & H2 & C)|[(H1 & H2 & C)|[H1 C]]]];
    rewrite C; try discriminate; intros _.
  - subst e. reflexivity.
  - apply String.eqb_neq, H2.
Qed.

Lemma photo_extension_valid e : is_photo (classify e) = true → e ∈ valid_extensions.
Proof.
  destruct (classify_cases e) as [[H1 C]|[(H1 & H2 & C)|[(H1 & H2 & C)|[H1 C]]]];
    rewrite C; try discriminate; intros _; apply elem_of_valid_extensions; tauto.
Qed.

(** The try statement writes at most to the console. *)
Lemma locate_state pic storage st :
  ∃ l, (locate pic storage st).2 = set_console l st.
Proof.
  rewrite locate_eq. destruct (extract_capture_time st pic); cbn [snd].
  - exists (console st). destruct st; reflexivity.
  - eexists. reflexivity.
Qed.

(** Where a photo goes: the dated or the [nodate] directory under the
    storage root of its extension, and in it the stem followed by the
    extension. *)
Lemma plan_destination cfg pic extension st :
  ∃ l,
    plan cfg pic extension st
    = (Ok {| date_taken := extract_capture_time st pic;
             new_filepath :=
               match extract_capture_time st pic with
               | Some t => PosixPath.join (storage_path cfg extension)
                             [year_text t; digits2 (PyDatetime.month t)]
               | None => PosixPath.join (storage_path cfg extension) ["nodate"]
               end;
             new_name := stem (extract_capture_time st pic) (serial st) +:+ extension;
             new_jname := stem (extract_capture_time st pic) (serial st) +:+ ".jpg" |},
       set_console l st).
Proof.
  destruct (locate_state pic (storage_path cfg extension) st) as [l El].
  exists l. rewrite plan_eq. cbv zeta. rewrite El.
  rewrite names_stem by (intros t Ht; eapply extract_valid, Ht). cbn [fst snd].
  destruct (extract_capture_time st pic) as [t|] eqn:Et; [|reflexivity].
  destruct (strftime_formats t (extract_valid _ _ _ Et)) as (-> & -> & _).
  reflexivity.
Qed.

(** Under a plain storage root the directory of a photo is plain too, and
    lies below the root. *)
Lemma photo_dir_plain cfg st pic :
  let r := storage_path cfg (PyStr.lower (PosixPath.splitext pic).2) in
  plain_dir r = true →
  plain_dir (photo_dir cfg st pic) = true
  ∧ (String.length r < String.length (photo_dir cfg st pic))%nat.
Proof.
  intros r Hr. unfold photo_dir. fold r.
  destruct (extract_capture_time st pic) as [t|].
  - rewrite (join_under2 r (year_text t) (digits2 (PyDatetime.month t)) Hr
               (year_text_nonempty t) (year_text_no_sep t))
      by apply digit_not_sep.
    replace (under2 r (year_text t) (digits2 (PyDatetime.month t)))
      with (under1 (under1 r (year_text t)) (digits2 (PyDatetime.month t)))
      by (unfold under1, under2; rewrite !append_assoc; reflexivity).
    split; [apply plain_dir_under1; [discriminate | apply digit_not_sep]|].
    pose proof (under1_longer r (year_text t)).
    pose proof (under1_longer (under1 r (year_text t)) (digits2 (PyDatetime.month t))).
    lia.
  - unfold PosixPath.join. cbn [fold_left].
    rewrite (join2_plain r "nodate" Hr eq_refl).
    split; [apply plain_dir_under1; [discriminate | reflexivity]|].
    apply under1_longer.
Qed.

(** The new name of a photo is a file name: not empty, without separator. *)
Lemma photo_name taken s extension :
  extension ∈ valid_extensions →
  stem taken s +:+ extension ≠ ""
  ∧ contains (stem taken s +:+ extension) PosixPath.sep = false.
Proof.
  intros He. destruct (valid_extension_shape extension He) as (rest & -> & _ & Hs).
  split.
  - intros E. apply (f_equal String.length) in E. rewrite append_length in E.
    simpl in E. lia.
  - rewrite contains_append, stem_no_sep. cbn [contains]. rewrite Hs. reflexivity.
Qed.

(** The loop body on a photo in a real run, up to the jpeg step. *)
Lemma photo_real_run args cfg pic c st :
  dryrun args = false →
  is_photo (classify_path pic) = true →
  fs st !! pic = Some (File c) →
  let extension := PyStr.lower (PosixPath.splitext pic).2 in
  let taken := extract_capture_time st pic in
  let dst := photo_destination cfg st pic in
  plain_dir (storage_path cfg extension) = true →
  creatable st (photo_dir cfg st pic) = true →
  fs st !! dst ≠ Some Dir →
  ∃ l st1,
    adds_dirs (String.length (photo_dir cfg st pic))
      (set_console l (set_serial (serial st + 1) st)) st1
    ∧ fs st1 !! photo_dir cfg st pic = Some Dir
    ∧ (String.length (storage_path cfg extension) < String.length (photo_dir cfg st pic)
       < String.length dst)%nat
    ∧ process_pic args cfg pic st
      = (if String.eqb extension ".cr2" then
           bind (Os.path_exists (raw_path cfg)) (fun raw_exists =>
             bind (when (negb raw_exists) (Os.makedirs (raw_path cfg))) (fun _ =>
               bind (datetime_strftime taken "%Y") (fun y =>
                 subprocess_run
                   ["darktable-cli"; dst;
                    PosixPath.join (pre_process cfg)
                      [y; stem taken (serial st + 1) +:+ ".jpg"]])))
         else ret tt)
          (set_fs (<[dst := File c]> (delete pic (fs st1))) st1).
Proof.
  intros Hdry Hphoto Hpic extension taken dst Hroot Hcre Hdst.
  unfold classify_path in Hphoto. fold extension in Hphoto.
  destruct (plan_destination cfg pic extension (set_serial (serial st + 1) st))
    as [l Ep].
  change (extract_capture_time (set_serial (serial st + 1) st) pic) with taken in Ep.
  change (serial (set_serial (serial st + 1) st)) with (serial st + 1) in Ep.
  match type of Ep with _ = (Ok ?d, ?s) => set (dec := d) in *; set (st2 := s) in * end.
  assert (Hbody : process_pic args cfg pic st = apply args cfg pic extension dec st2).
  { unfold process_pic, bind at 1, modify.
    destruct (PosixPath.splitext pic) as [original_name e]. cbn [snd] in extension.
    cbv beta zeta. fold extension.
    destruct (classify extension); try discriminate;
      unfold bind at 1; rewrite Ep; reflexivity. }
  assert (Hdir : new_filepath dec = photo_dir cfg st pic) by reflexivity.
  destruct (photo_dir_plain cfg st pic Hroot) as [Hplain Hlonger].
  destruct (photo_name taken (serial st + 1) extension
              (photo_extension_valid _ Hphoto)) as [Hne Hsep].
  assert (Hd : under1 (new_filepath dec) (new_name dec) = dst).
  { unfold dst, photo_destination. fold extension taken. rewrite <- Hdir.
    unfold PosixPath.join. cbn [fold_left]. symmetry.
    apply join2_plain; [rewrite Hdir; exact Hplain | apply no_sep_startswith, Hsep]. }
  destruct (apply_real_run args cfg pic extension dec c st2 Hdry)
    as (st1 & A & Hdir1 & E).
  - exact Hpic.
  - rewrite Hdir. exact Hplain.
  - exact Hne.
  - exact Hsep.
  - exact Hcre.
  - rewrite Hd. exact Hdst.
  - exists l, st1. rewrite Hdir in A, Hdir1. split; [exact A|]. split; [exact Hdir1|].
    split.
    + rewrite <- Hd, Hdir. pose proof (under1_longer (photo_dir cfg st pic) (new_name dec)).
      fold extension in Hlonger. lia.
    + rewrite Hbody, E, Hd. reflexivity.
Qed.

(** After the move the directory of the photo is still a directory. *)
Lemma moved_keeps_dir st1 pic dst c d :
  fs st1 !! pic = Some (File c) → fs st1 !! d = Some Dir →
  (String.length d < String.length dst)%nat →
  fs (set_fs (<[dst := File c]> (delete pic (fs st1))) st1) !! d = Some Dir.
Proof.
  intros Hpic Hd Hlen. rewrite moved_lookup; [exact Hd | intros ->; lia | congruence].
Qed.

(** X6. In a real run a processed photo that is there ends up at its planned
    destination, [<pre-process>/<year>/MM] or [<pre-process>/nodate] and the
    stamp, serial and lowercased extension as its name, with its content;
    it is gone from the inbox, no process is started and the reject
    counter does not move. The directory must be there, or be missing below
    a directory, and the destination must not be a directory. *)
Theorem processed_photo_is_moved args cfg pic c st :
  dryrun args = false →
  classify_path pic = ProcessedPhoto →
  fs st !! pic = Some (File c) →
  plain_dir (pre_process cfg) = true →
  creatable st (photo_dir cfg st pic) = true →
  let dst := photo_destination cfg st pic in
  fs st !! dst ≠ Some Dir →
  ∃ st', process_pic args cfg pic st = (Ok tt, st')
         ∧ fs st' !! dst = Some (File c)
         ∧ (pic ≠ dst → fs st' !! pic = None)
         ∧ fs st' !! photo_dir cfg st pic = Some Dir
         ∧ spawned st' = spawned st
         ∧ reject_count st' = reject_count st
         ∧ serial st' = serial st + 1.
Proof.
  intros Hdry Hc Hpic Hroot Hcre dst Hdst.
  assert (Hphoto : is_photo (classify_path pic) = true) by (rewrite Hc; reflexivity).
  pose proof (classify_photo_eqb _ Hphoto) as Hraw.
  unfold classify_path in Hc. rewrite Hc in Hraw.
  assert (Hroot' : plain_dir (storage_path cfg (PyStr.lower (PosixPath.splitext pic).2))
                   = true).
  { unfold storage_path. rewrite Hraw. exact Hroot. }
  destruct (photo_real_run args cfg pic c st Hdry Hphoto Hpic Hroot' Hcre Hdst)
    as (l & st1 & A1 & Hdir1 & Hlen & E).
  fold dst in E, Hlen. rewrite Hraw in E.
  eexists. split; [exact E|].
  split; [cbn [fs set_fs]; apply lookup_insert_eq|]. split; [|split].
  - intros Hne. cbn [fs set_fs]. rewrite lookup_insert_ne by congruence.
    apply lookup_delete_eq.
  - apply moved_keeps_dir; [eapply adds_dirs_file; eassumption | exact Hdir1 | lia].
  - cbn [spawned reject_count serial set_fs]. destruct A1 as [-> _]. repeat split.
Qed.

Lemma processed_photo_is_moved_witness :
  let pic := "/photos/inbox/holiday/IMG_1.JPG" in
  let st := world [(pic, Image (Some "2023:04:05 11:22:33"))] (Some 6) in
  dryrun real_run = false
  ∧ classify_path pic = ProcessedPhoto
  ∧ fs st !! pic = Some (File (Image (Some "2023:04:05 11:22:33")))
  ∧ plain_dir (pre_process sample_cfg) = true
  ∧ creatable st (photo_dir sample_cfg st pic) = true
  ∧ photo_destination sample_cfg st pic = "/photos/pre/2023/04/20230405_112233_1.jpg"
  ∧ ∃ st', process_pic real_run sample_cfg pic st = (Ok tt, st')
           ∧ fs st' !! photo_destination sample_cfg st pic
             = Some (File (Image (Some "2023:04:05 11:22:33")))
           ∧ fs st' !! pic = None.
Proof.
  intros pic st.
  assert (H1 : classify_path pic = ProcessedPhoto) by reflexivity.
  assert (H2 : fs st !! pic = Some (File (Image (Some "2023:04:05 11:22:33"))))
    by (vm_compute; reflexivity).
  assert (H3 : photo_destination sample_cfg st pic
               = "/photos/pre/2023/04/20230405_112233_1.jpg")
    by (vm_compute; reflexivity).
  assert (H4 : fs st !! photo_destination sample_cfg st pic ≠ Some Dir)
    by (vm_compute; discriminate).
  assert (H5 : creatable st (photo_dir sample_cfg st pic) = true)
    by (vm_compute; reflexivity).
  split; [reflexivity|]. split; [exact H1|]. split; [exact H2|].
  split; [reflexivity|]. split; [exact H5|]. split; [exact H3|].
  destruct (processed_photo_is_moved real_run sample_cfg pic _ st
              eq_refl H1 H2 eq_refl H5 H4)
    as (st' & E & Hd & Hm & _).
  exists st'. split; [exact E|]. split; [exact Hd|].
  apply Hm. rewrite H3. discriminate.
Defined.






(** ** What a dry run announces *)

(** The loop body on a photo under dry-run: nothing but log records, among
    them the move to the destination. *)
Lemma photo_dry_run args cfg pic st :
  dryrun args = true →
  is_photo (classify_path pic) = true →
  ∃ st', process_pic args cfg pic st = (Ok tt, st')
         ∧ fs st' = fs st ∧ spawned st' = spawned st
         ∧ In (INFO, "ACTION: move " +:+ pic +:+ " to "
                     +:+ photo_destination cfg st pic) (console st').
Proof.
  intros Hdry Hphoto. unfold classify_path in Hphoto.
  set (extension := PyStr.lower (PosixPath.splitext pic).2) in *.
  destruct (plan_destination cfg pic extension (set_serial (serial st + 1) st))
    as [l Ep].
  change (extract_capture_time (set_serial (serial st + 1) st) pic)
    with (extract_capture_time st pic) in Ep.
  change (serial (set_serial (serial st + 1) st)) with (serial st + 1) in Ep.
  match type of Ep with _ = (Ok ?d, ?s) => set (dec := d) in *; set (st2 := s) in * end.
  assert (Hbody : process_pic args cfg pic st = apply args cfg pic extension dec st2).
  { unfold process_pic, bind at 1, modify.
    destruct (PosixPath.splitext pic) as [original_name e]. cbn [snd] in extension.
    cbv beta zeta. fold extension.
    destruct (classify extension); try discriminate;
      unfold bind at 1; rewrite Ep; reflexivity. }
  assert (Hd : PosixPath.join (new_filepath dec) [new_name dec]
               = photo_destination cfg st pic) by reflexivity.
  rewrite Hbody. unfold apply. rewrite Hdry, Hd. cbn [negb].
  unfold bind, Os.path_exists, gets, when, log, modify, ret.
  destruct (fs st2 !! new_filepath dec); cbn [negb];
    destruct (String.eqb extension ".cr2");
    eexists; (split; [reflexivity|]); cbn [fs spawned console set_console];
    (split; [reflexivity|]); (split; [reflexivity|]);
    rewrite ?in_app_iff; cbn [In]; tauto.
Qed.

(** In a real run the photo is at its destination when the loop body ends,
    however it ends. *)
Lemma photo_real_run_moves args cfg pic c st :
  dryrun args = false →
  is_photo (classify_path pic) = true →
  fs st !! pic = Some (File c) →
  plain_dir (storage_path cfg (PyStr.lower (PosixPath.splitext pic).2)) = true →
  creatable st (photo_dir cfg st pic) = true →
  fs st !! photo_destination cfg st pic ≠ Some Dir →
  fs (process_pic args cfg pic st).2 !! photo_destination cfg st pic = Some (File c).
Proof.
  intros Hdry Hphoto Hpic Hroot Hcre Hdst.
  destruct (photo_real_run args cfg pic c st Hdry Hphoto Hpic Hroot Hcre Hdst)
    as (l & st1 & _ & _ & _ & E).
  rewrite E. clear E.
  set (dst := photo_destination cfg st pic) in *.
  set (st2 := set_fs (<[dst := File c]> (delete pic (fs st1))) st1).
  assert (Hd2 : fs st2 !! dst = Some (File c))
    by (subst st2; cbn [fs set_fs]; apply lookup_insert_eq).
  destruct (String.eqb _ ".cr2"); [|exact Hd2].
  unfold bind at 1, Os.path_exists at 1, gets. unfold bind at 1.
  match goal with
  | |- context [when ?b ?m st2] =>
      destruct (when b m st2) as [[[]|e] st3] eqn:E3;
      apply when_makedirs_adds_dirs in E3
  end; cbn [snd]; [|eapply adds_dirs_file; eassumption].
  assert (Hd3 : fs st3 !! dst = Some (File c))
    by (eapply adds_dirs_file; eassumption).
  unfold datetime_strftime, subprocess_run, bind, raise, ret, gets, modify.
  destruct (extract_capture_time st pic); [|exact Hd3].
  destruct (bool_decide _); exact Hd3.
Qed.

(** X9. For a photo, what a dry run announces is what a real run does: the
    dry run logs the move to the very path at which the real run leaves
    the file, and itself leaves the filesystem as it is. For the real run
    the directory of the photo must be there, or be missing below a
    directory. *)
Theorem dry_run_announces_the_move dry real cfg pic c st :
  dryrun dry = true →
  dryrun real = false →
  is_photo (classify_path pic) = true →
  fs st !! pic = Some (File c) →
  plain_dir (storage_path cfg (PyStr.lower (PosixPath.splitext pic).2)) = true →
  creatable st (photo_dir cfg st pic) = true →
  let dst := photo_destination cfg st pic in
  fs st !! dst ≠ Some Dir →
  In (INFO, "ACTION: move " +:+ pic +:+ " to " +:+ dst)
     (console (process_pic dry cfg pic st).2)
  ∧ (process_pic dry cfg pic st).1 = Ok tt
  ∧ fs (process_pic dry cfg pic st).2 = fs st
  ∧ fs (process_pic real cfg pic st).2 !! dst = Some (File c).
Proof.
  intros Hdry Hreal Hphoto Hpic Hroot Hcre dst Hdst.
  destruct (photo_dry_run dry cfg pic st Hdry Hphoto) as (st' & E & Hfs & _ & Hin).
  rewrite E. cbn [fst snd]. split; [exact Hin|]. split; [reflexivity|].
  split; [exact Hfs|].
  apply photo_real_run_moves; assumption.
Qed.

Lemma dry_run_announces_the_move_witness :
  let pic := "/photos/inbox/IMG_4.png" in
  let st := world [(pic, Image None)] (Some 6) in
  let dst := photo_destination sample_cfg st pic in
  dryrun dry_run = true ∧ dryrun real_run = false
  ∧ is_photo (classify_path pic) = true
  ∧ fs st !! pic = Some (File (Image None))
  ∧ plain_dir (storage_path sample_cfg (PyStr.lower (PosixPath.splitext pic).2)) = true
  ∧ creatable st (photo_dir sample_cfg st pic) = true
  ∧ dst = "/photos/pre/nodate/1.png"
  ∧ In (INFO, "ACTION: move " +:+ pic +:+ " to " +:+ dst)
       (console (process_pic dry_run sample_cfg pic st).2)
  ∧ (process_pic dry_run sample_cfg pic st).1 = Ok tt
  ∧ fs (process_pic dry_run sample_cfg pic st).2 = fs st
  ∧ fs (process_pic real_run sample_cfg pic st).2 !! dst = Some (File (Image None)).
Proof.
  intros pic st dst.
  assert (H1 : is_photo (classify_path pic) = true) by reflexivity.
  assert (H2 : fs st !! pic = Some (File (Image None))) by (vm_compute; reflexivity).
  assert (H3 : dst = "/photos/pre/nodate/1.png") by (vm_compute; reflexivity).
  assert (H4 : fs st !! dst ≠ Some Dir) by (vm_compute; discriminate).
  assert (H5 : plain_dir (storage_path sample_cfg
                            (PyStr.lower (PosixPath.splitext pic).2)) = true)
    by reflexivity.
  assert (H6 : creatable st (photo_dir sample_cfg st pic) = true)
    by (vm_compute; reflexivity).
  split; [reflexivity|]. split; [reflexivity|]. split; [exact H1|].
  split; [exact H2|]. split; [exact H5|]. split; [exact H6|]. split; [exact H3|].
  exact (dry_run_announces_the_move dry_run real_run sample_cfg pic (Image None) st
           eq_refl eq_refl H1 H2 H5 H6 H4).
Defined.

(** ** Rejected files *)

(** [reject] in a real run, for a file that is there, a reject directory
    that is there or can be made, and a destination that is no directory. *)
Lemma reject_real_run args cfg file c st :
  dryrun args = false →
  fs st !! file = Some (File c) →
  PosixPath.basename file ≠ "" →
  plain_dir (reject_path cfg) = true →
  creatable st (reject_path cfg) = true →
  let dst := reject_path cfg +:+ "/" +:+ PosixPath.basename file in
  fs st !! dst ≠ Some Dir →
  ∃ st1,
    adds_dirs (String.length (reject_path cfg))
      (set_reject_count (reject_count st + 1) st) st1
    ∧ fs st1 !! reject_path cfg = Some Dir
    ∧ reject args cfg file st
      = (Ok tt, set_fs (<[dst := File c]> (delete file (fs st1))) st1).
Proof.
  intros Hdry Hfile Hbase Hplain Hcre dst Hdst. unfold reject. rewrite Hdry.
  unfold bind at 1, modify. unfold bind at 1, Os.path_exists, gets.
  match goal with
  | |- context [when (negb match fs ?s !! ?p with _ => _ end) _] =>
      destruct (ensure_dir_spec p s Hcre) as (st1 & E1 & A1 & Hdir1)
  end.
  unfold bind at 1. rewrite E1. exists st1. split; [exact A1|]. split; [exact Hdir1|].
  apply (shutil_move_under1 file (reject_path cfg) (PosixPath.basename file) c st1).
  - eapply adds_dirs_file; [exact A1 | exact Hfile].
  - exact Hplain.
  - exact Hbase.
  - apply basename_no_sep.
  - exact Hdir1.
  - eapply adds_dirs_not_dir; [exact A1 | apply under1_longer | exact Hdst].
Qed.

(** [reject_video] in a real run, likewise. *)
Lemma reject_video_real_run args cfg video c st :
  dryrun args = false →
  fs st !! video = Some (File c) →
  PosixPath.basename video ≠ "" →
  plain_dir (video_path cfg) = true →
  creatable st (video_path cfg) = true →
  let dst := video_path cfg +:+ "/" +:+ PosixPath.basename video in
  fs st !! dst ≠ Some Dir →
  ∃ st1,
    adds_dirs (String.length (video_path cfg))
      (set_reject_count (reject_count st + 1) st) st1
    ∧ fs st1 !! video_path cfg = Some Dir
    ∧ reject_video args cfg video st
      = (Ok tt, set_fs (<[dst := File c]> (delete video (fs st1))) st1).
Proof.
  intros Hdry Hfile Hbase Hplain Hcre dst Hdst. unfold reject_video. rewrite Hdry.
  unfold bind at 1, modify. unfold bind at 1, Os.path_exists, gets.
  match goal with
  | |- context [when (negb match fs ?s !! ?p with _ => _ end) _] =>
      destruct (ensure_dir_spec p s Hcre) as (st1 & E1 & A1 & Hdir1)
  end.
  unfold bind at 1. rewrite E1. exists st1. split; [exact A1|]. split; [exact Hdir1|].
  apply (shutil_move_under1 video (video_path cfg) (PosixPath.basename video) c st1).
  - eapply adds_dirs_file; [exact A1 | exact Hfile].
  - exact Hplain.
  - exact Hbase.
  - apply basename_no_sep.
  - exact Hdir1.
  - eapply adds_dirs_not_dir; [exact A1 | apply under1_longer | exact Hdst].
Qed.

(** The loop body on a file that is no photo. *)
Lemma process_pic_not_photo args cfg pic st :
  is_photo (classify_path pic) = false →
  ∃ l, process_pic args cfg pic st
       = match classify_path pic with
         | Video => reject_video args cfg pic
         | _ => reject args cfg pic
         end (set_console l (set_serial (serial st + 1) st)).
Proof.
  unfold classify_path, process_pic, bind at 1, modify. intros H.
  destruct (PosixPath.splitext pic) as [original_name e]. cbn [snd] in *.
  cbv beta zeta.
  destruct (classify (PyStr.lower e)); try discriminate;
    unfold bind, log, modify; eexists; reflexivity.
Qed.

(** X10. In a real run a video that is there is moved to
    [<video>/<basename>] with its content, counted as a reject, and the
    loop goes on; no process is started. The video directory must be there,
    or be missing below a directory, and the destination must not be a
    directory. *)
Theorem video_is_moved args cfg pic c st :
  dryrun args = false →
  classify_path pic = Video →
  fs st !! pic = Some (File c) →
  PosixPath.basename pic ≠ "" →
  plain_dir (video_path cfg) = true →
  creatable st (video_path cfg) = true →
  let dst := video_path cfg +:+ "/" +:+ PosixPath.basename pic in
  fs st !! dst ≠ Some Dir →
  ∃ st', process_pic args cfg pic st = (Ok tt, st')
         ∧ fs st' !! dst = Some (File c)
         ∧ (pic ≠ dst → fs st' !! pic = None)
         ∧ fs st' !! video_path cfg = Some Dir
         ∧ reject_count st' = reject_count st + 1
         ∧ spawned st' = spawned st
         ∧ ∀ rest, for_each (pic :: rest) (process_pic args cfg) st
                   = for_each rest (process_pic args cfg) st'.
Proof.
  intros Hdry Hc Hpic Hbase Hplain Hcre dst Hdst.
  destruct (process_pic_not_photo args cfg pic st) as [l E];
    [rewrite Hc; reflexivity|].
  rewrite Hc in E.
  destruct (reject_video_real_run args cfg pic c
              (set_console l (set_serial (serial st + 1) st))
              Hdry Hpic Hbase Hplain Hcre Hdst)
    as (st1 & A1 & Hdir1 & E1).
  fold dst in E1. rewrite E1 in E.
  eexists. split; [exact E|].
  split; [cbn [fs set_fs]; apply lookup_insert_eq|]. split; [|split; [|split; [|split]]].
  - intros Hne. cbn [fs set_fs]. rewrite lookup_insert_ne by congruence.
    apply lookup_delete_eq.
  - apply moved_keeps_dir;
      [eapply adds_dirs_file; eassumption | exact Hdir1 | apply under1_longer].
  - cbn [reject_count set_fs]. destruct A1 as [-> _]. reflexivity.
  - cbn [spawned set_fs]. destruct A1 as [-> _]. reflexivity.
  - intros rest. cbn [for_each]. unfold bind. rewrite E. reflexivity.
Qed.

Lemma video_is_moved_witness :
  let pic := "/photos/inbox/trip/clip.MP4" in
  let st := world [(pic, Unreadable)] None in
  dryrun real_run = false
  ∧ classify_path pic = Video
  ∧ fs st !! pic = Some (File Unreadable)
  ∧ PosixPath.basename pic ≠ ""
  ∧ plain_dir (video_path sample_cfg) = true
  ∧ creatable st (video_path sample_cfg) = true
  ∧ ∃ st', process_pic real_run sample_cfg pic st = (Ok tt, st')
           ∧ fs st' !! "/photos/video/clip.MP4" = Some (File Unreadable)
           ∧ fs st' !! pic = None
           ∧ reject_count st' = reject_count st + 1.
Proof.
  intros pic st.
  assert (H1 : classify_path pic = Video) by reflexivity.
  assert (H2 : fs st !! pic = Some (File Unreadable)) by (vm_compute; reflexivity).
  assert (H3 : fs st !! (video_path sample_cfg +:+ "/" +:+ PosixPath.basename pic)
               ≠ Some Dir) by (vm_compute; discriminate).
  assert (H4 : PosixPath.basename pic ≠ "") by (vm_compute; discriminate).
  assert (H5 : creatable st (video_path sample_cfg) = true) by (vm_compute; reflexivity).
  split; [reflexivity|]. split; [exact H1|]. split; [exact H2|]. split; [exact H4|].
  split; [reflexivity|]. split; [exact H5|].
  destruct (video_is_moved real_run sample_cfg pic Unreadable st
              eq_refl H1 H2 H4 eq_refl H5 H3)
    as (st' & E & Hd & Hm & _ & Hrc & _).
  exists st'. split; [exact E|]. split; [exact Hd|]. split; [|exact Hrc].
  apply Hm. discriminate.
Defined.

(** X11. The reject directory is flat: two unsupported files with the same
    base name, from different folders of the inbox, are moved to the same
    path, and the second replaces the first. After a real run over both,
    the reject directory holds the second file's content, neither file is
    where it was, and the first file's content is nowhere it was not
    already. The reject directory must be there, or be missing below a
    directory. *)
Theorem rejects_with_the_same_name_collide args cfg pic1 pic2 c1 c2 st :
  dryrun args = false →
  classify_path pic1 = Unsupported → classify_path pic2 = Unsupported →
  PosixPath.basename pic1 = PosixPath.basename pic2 →
  PosixPath.basename pic1 ≠ "" →
  pic1 ≠ pic2 →
  fs st !! pic1 = Some (File c1) → fs st !! pic2 = Some (File c2) →
  plain_dir (reject_path cfg) = true →
  creatable st (reject_path cfg) = true →
  let dst := reject_path cfg +:+ "/" +:+ PosixPath.basename pic1 in
  fs st !! dst ≠ Some Dir → pic1 ≠ dst → pic2 ≠ dst →
  ∃ st', for_each [pic1; pic2] (process_pic args cfg) st = (Ok tt, st')
         ∧ fs st' !! dst = Some (File c2)
         ∧ (∀ c, fs st' !! pic1 ≠ Some (File c))
         ∧ fs st' !! pic2 = None
         ∧ reject_count st' = reject_count st + 2
         ∧ (c1 ≠ c2 →
            ∀ p, fs st' !! p = Some (File c1) → fs st !! p = Some (File c1) ∧ p ≠ pic1).
Proof.
  intros Hdry Hc1 Hc2 Hbase Hbne Hne H1 H2 Hplain Hcre dst Hdst Hd1 Hd2.
  (* the first file *)
  destruct (process_pic_not_photo args cfg pic1 st) as [l1 Ea];
    [rewrite Hc1; reflexivity|].
  rewrite Hc1 in Ea.
  destruct (reject_real_run args cfg pic1 c1
              (set_console l1 (set_serial (serial st + 1) st))
              Hdry H1 Hbne Hplain Hcre Hdst)
    as (sa & Aa & Hdira & Ea').
  fold dst in Ea'. rewrite Ea' in Ea. clear Ea'.
  set (st_a := set_fs (<[dst := File c1]> (delete pic1 (fs sa))) sa) in *.
  assert (Fa : ∀ p, fs st_a !! p
                    = if decide (p = dst) then Some (File c1)
                      else if decide (p = pic1) then None else fs sa !! p).
  { intros p. subst st_a. cbn [fs set_fs].
    destruct (decide (p = dst)) as [->|?]; [apply lookup_insert_eq|].
    rewrite lookup_insert_ne by congruence.
    destruct (decide (p = pic1)) as [->|?]; [apply lookup_delete_eq|].
    by rewrite lookup_delete_ne by congruence. }
  assert (H2a : fs st_a !! pic2 = Some (File c2)).
  { rewrite Fa. repeat destruct (decide _); try congruence.
    eapply adds_dirs_file; [exact Aa | exact H2]. }
  assert (Hdsta : fs st_a !! (reject_path cfg +:+ "/" +:+ PosixPath.basename pic2)
                  ≠ Some Dir).
  { rewrite <- Hbase. fold dst. rewrite Fa.
    destruct (decide (dst = dst)); [discriminate | congruence]. }
  assert (Hcrea : creatable st_a (reject_path cfg) = true).
  { apply creatable_dir. subst st_a. apply moved_keeps_dir;
      [eapply adds_dirs_file; eassumption | exact Hdira | apply under1_longer]. }
  assert (Hbne2 : PosixPath.basename pic2 ≠ "") by (rewrite <- Hbase; exact Hbne).
  (* the second file *)
  destruct (process_pic_not_photo args cfg pic2 st_a) as [l2 Eb];
    [rewrite Hc2; reflexivity|].
  rewrite Hc2 in Eb.
  destruct (reject_real_run args cfg pic2 c2
              (set_console l2 (set_serial (serial st_a + 1) st_a))
              Hdry H2a Hbne2 Hplain Hcrea Hdsta)
    as (sb & Ab & _ & Eb').
  rewrite <- Hbase in Eb'. fold dst in Eb'. rewrite Eb' in Eb. clear Eb'.
  set (st_b := set_fs (<[dst := File c2]> (delete pic2 (fs sb))) sb) in *.
  assert (Fb : ∀ p, fs st_b !! p
                    = if decide (p = dst) then Some (File c2)
                      else if decide (p = pic2) then None else fs sb !! p).
  { intros p. subst st_b. cbn [fs set_fs].
    destruct (decide (p = dst)) as [->|?]; [apply lookup_insert_eq|].
    rewrite lookup_insert_ne by congruence.
    destruct (decide (p = pic2)) as [->|?]; [apply lookup_delete_eq|].
    by rewrite lookup_delete_ne by congruence. }
  assert (Back : ∀ p c, fs sb !! p = Some (File c) → fs st_a !! p = Some (File c)).
  { intros p c Hp. exact (adds_dirs_file_back _ _ _ _ _ Ab Hp). }
  exists st_b. split.
  { cbn [for_each]. unfold bind. rewrite Ea, Eb. reflexivity. }
  split; [|split; [|split; [|split]]].
  - rewrite Fb. destruct (decide (dst = dst)); congruence.
  - intros c Hp. rewrite Fb in Hp.
    destruct (decide (pic1 = dst)); [congruence|].
    destruct (decide (pic1 = pic2)); [congruence|].
    apply Back in Hp. rewrite Fa in Hp.
    destruct (decide (pic1 = dst)); [congruence|].
    destruct (decide (pic1 = pic1)); congruence.
  - rewrite Fb. destruct (decide (pic2 = dst)); [congruence|].
    destruct (decide (pic2 = pic2)); congruence.
  - subst st_b. cbn [reject_count set_fs]. destruct Ab as [-> _].
    cbn [reject_count set_fs set_reject_count set_console set_serial].
    subst st_a. cbn [reject_count set_fs]. destruct Aa as [-> _].
    cbn [reject_count set_fs set_reject_count set_console set_serial]. lia.
  - intros Hc p Hp. rewrite Fb in Hp.
    destruct (decide (p = dst)); [congruence|].
    destruct (decide (p = pic2)); [congruence|].
    apply Back in Hp. rewrite Fa in Hp.
    destruct (decide (p = dst)); [congruence|].
    destruct (decide (p = pic1)) as [|Hp1]; [congruence|].
    split; [|exact Hp1].
    exact (adds_dirs_file_back _ _ _ _ _ Aa Hp).
Qed.

Lemma rejects_with_the_same_name_collide_witness :
  let pic1 := "/photos/inbox/a/notes.txt" in
  let pic2 := "/photos/inbox/b/notes.txt" in
  let c1 := Image (Some "first") in
  let c2 := Image (Some "second") in
  let st := world [(pic1, c1); (pic2, c2)] None in
  let dst := reject_path sample_cfg +:+ "/" +:+ PosixPath.basename pic1 in
  dryrun real_run = false
  ∧ classify_path pic1 = Unsupported ∧ classify_path pic2 = Unsupported
  ∧ PosixPath.basename pic1 = PosixPath.basename pic2
  ∧ PosixPath.basename pic1 ≠ ""
  ∧ fs st !! pic1 = Some (File c1) ∧ fs st !! pic2 = Some (File c2)
  ∧ plain_dir (reject_path sample_cfg) = true
  ∧ creatable st (reject_path sample_cfg) = true
  ∧ dst = "/photos/reject/notes.txt"
  ∧ ∃ st', for_each [pic1; pic2] (process_pic real_run sample_cfg) st = (Ok tt, st')
           ∧ fs st' !! dst = Some (File c2)
           ∧ (∀ p, fs st' !! p = Some (File c1) → fs st !! p = Some (File c1) ∧ p ≠ pic1).
Proof.
  intros pic1 pic2 c1 c2 st dst.
  assert (H1 : classify_path pic1 = Unsupported) by reflexivity.
  assert (H2 : classify_path pic2 = Unsupported) by reflexivity.
  assert (H3 : PosixPath.basename pic1 = PosixPath.basename pic2) by reflexivity.
  assert (H4 : pic1 ≠ pic2) by discriminate.
  assert (H5 : fs st !! pic1 = Some (File c1)) by (vm_compute; reflexivity).
  assert (H6 : fs st !! pic2 = Some (File c2)) by (vm_compute; reflexivity).
  assert (H7 : fs st !! dst ≠ Some Dir) by (vm_compute; discriminate).
  assert (H8 : pic1 ≠ dst) by (vm_compute; discriminate).
  assert (H9 : pic2 ≠ dst) by (vm_compute; discriminate).
  assert (H10 : PosixPath.basename pic1 ≠ "") by (vm_compute; discriminate).
  assert (H11 : creatable st (reject_path sample_cfg) = true)
    by (vm_compute; reflexivity).
  split; [reflexivity|]. split; [exact H1|]. split; [exact H2|]. split; [exact H3|].
  split; [exact H10|]. split; [exact H5|]. split; [exact H6|]. split; [reflexivity|].
  split; [exact H11|]. split; [reflexivity|].
  destruct (rejects_with_the_same_name_collide real_run sample_cfg pic1 pic2 c1 c2 st
              eq_refl H1 H2 H3 H10 H4 H5 H6 eq_refl H11 H7 H8 H9)
    as (st' & E & Hd & _ & _ & _ & Hlost).
  exists st'. split; [exact E|]. split; [exact Hd|].
  apply Hlost. discriminate.
Defined.

(** ** The reject counter *)

Lemma reject_counts args cfg file st r st' :
  reject args cfg file st = (r, st') → reject_count st' = reject_count st + 1.
Proof.
  unfold reject. intros H.
  eapply (after_modify (keeps reject_count)) in H; [exact H|]. intros _.
  keeps_bind; [keeps_done|].
  keeps_bind; [keeps_cases; apply makedirs_keeps; reflexivity|].
  keeps_cases; [apply log_keeps | apply shutil_move_keeps]; reflexivity.
Qed.

Lemma reject_video_counts args cfg video st r st' :
  reject_video args cfg video st = (r, st') → reject_count st' = reject_count st + 1.
Proof.
  unfold reject_video. intros H.
  eapply (after_modify (keeps reject_count)) in H; [exact H|]. intros _.
  keeps_bind; [keeps_done|].
  keeps_bind; [keeps_cases; apply makedirs_keeps; reflexivity|].
  keeps_cases; [apply log_keeps | apply shutil_move_keeps]; reflexivity.
Qed.

(** One file: the reject counter moves by one exactly when the file is no
    photo, however the loop body ends. *)
Lemma process_pic_reject_count args cfg pic st r st' :
  process_pic args cfg pic st = (r, st') →
  reject_count st'
  = reject_count st + (if is_photo (classify_path pic) then 0 else 1).
Proof.
  unfold classify_path, process_pic. intros H.
  unfold bind at 1, modify in H.
  destruct (PosixPath.splitext pic) as [original_name e]. cbn [snd].
  cbv beta zeta in H.
  destruct (classify (PyStr.lower e)); cbn [is_photo].
  - assert (P : preserves (keeps reject_count)
                  (bind (plan cfg pic (PyStr.lower e))
                        (fun dec => apply args cfg pic (PyStr.lower e) dec))).
    { keeps_bind; [apply plan_keeps | apply apply_keeps]; reflexivity. }
    apply P in H. unfold keeps in H. rewrite H. cbn [reject_count set_serial]. lia.
  - assert (P : preserves (keeps reject_count)
                  (bind (plan cfg pic (PyStr.lower e))
                        (fun dec => apply args cfg pic (PyStr.lower e) dec))).
    { keeps_bind; [apply plan_keeps | apply apply_keeps]; reflexivity. }
    apply P in H. unfold keeps in H. rewrite H. cbn [reject_count set_serial]. lia.
  - unfold bind, log, modify in H. apply reject_video_counts in H. exact H.
  - unfold bind, log, modify in H. apply reject_counts in H. exact H.
Qed.

(** X12. The reject counter counts the files that are no photos: after a
    loop that returns it has grown by the number of unsupported files and
    videos among the files; after a loop ended by an exception it has grown
    by no more than that. Photos never touch it. *)
Theorem reject_counter_counts_non_photos args cfg pics : ∀ st,
  let rejects :=
    Z.of_nat (length (filter (fun pic => is_photo (classify_path pic) = false) pics)) in
  match for_each pics (process_pic args cfg) st with
  | (Ok _, st') => reject_count st' = reject_count st + rejects
  | (Raise _, st') => reject_count st ≤ reject_count st' ≤ reject_count st + rejects
  end.
Proof.
  induction pics as [|pic pics IH]; intros st; cbn [for_each].
  - unfold ret. cbn. lia.
  - unfold bind.
    destruct (process_pic args cfg pic st) as [[[]|e] st1] eqn:E;
      apply process_pic_reject_count in E; rewrite filter_cons;
      destruct (is_photo (classify_path pic)) eqn:Hp;
      try (rewrite decide_False by discriminate);
      try (rewrite decide_True by reflexivity);
      cbn [length]; cbv zeta.
    + specialize (IH st1). cbv zeta in IH.
      destruct (for_each pics (process_pic args cfg) st1) as [[[]|e] st2]; lia.
    + specialize (IH st1). cbv zeta in IH.
      destruct (for_each pics (process_pic args cfg) st1) as [[[]|e] st2]; lia.
    + lia.
    + lia.
Qed.

(** ** The console formatter *)

Lemma spaces_length n : String.length (Logging.spaces n) = n.
Proof.
  unfold Logging.spaces. induction n as [|n IH]; [reflexivity|].
  cbn [replicate String.concat]. destruct (replicate n " ") as [|x l] eqn:E.
  - destruct n; [reflexivity | discriminate].
  - rewrite !append_length, IH. reflexivity.
Qed.

(** The centred field is as wide as asked for, unless the text is wider. *)
Lemma center_length w s :
  String.length (Logging.center w s) = Nat.max w (String.length s).
Proof.
  unfold Logging.center. rewrite !append_length, !spaces_length.
  pose proof (Nat.div_mod_eq (w - String.length s) 2).
  lia.
Qed.

(** X13. [CustomFormatter.format] returns a line for the five standard
    levels and raises [KeyError] for a record of any other level. The line
    is the level name centred in a field of nine columns between brackets,
    a colon, and the message as it is, braces included; for every level but
    DEBUG it starts with an escape sequence and ends with the reset
    sequence, and for DEBUG it has no colour at all. *)
Theorem format_colours_the_standard_levels (r : Logging.LogRecord) :
  let line := "[" +:+ Logging.center 9 (Logging.levelname r) +:+ "]: "
              +:+ Logging.message r in
  let reset := Logging.ESC +:+ "[0m" in
  String.length (Logging.center 9 (Logging.levelname r))
  = Nat.max 9 (String.length (Logging.levelname r))
  ∧ match Logging.format r with
    | Ok text =>
        (Logging.levelno r = 10 ∧ text = line)
        ∨ (Logging.levelno r = 20 ∧ text = Logging.ESC +:+ "[36m" +:+ line +:+ reset)
        ∨ (Logging.levelno r = 30 ∧ text = Logging.ESC +:+ "[33m" +:+ line +:+ reset)
        ∨ (Logging.levelno r = 40 ∧ text = Logging.ESC +:+ "[31m" +:+ line +:+ reset)
        ∨ (Logging.levelno r = 50
           ∧ text = Logging.ESC +:+ "[1m" +:+ Logging.ESC +:+ "[31m" +:+ line +:+ reset)
    | Raise e => e = KeyError ∧ Logging.levelno r ∉ [10; 20; 30; 40; 50]
    end.
Proof.
  intros line reset. split; [apply center_length|].
  unfold Logging.format.
  destruct (decide (Logging.levelno r = 10)) as [E|N10].
  { rewrite E. change (Logging.FORMATS !! 10) with (Some Logging.FMT).
    left. split; [reflexivity|]. unfold line. cbn.
    rewrite append_empty_r. reflexivity. }
  destruct (decide (Logging.levelno r = 20)) as [E|N20].
  { rewrite E. right; left. split; [reflexivity|]. unfold line, reset. cbn.
    rewrite !append_assoc. reflexivity. }
  destruct (decide (Logging.levelno r = 30)) as [E|N30].
  { rewrite E. right; right; left. split; [reflexivity|]. unfold line, reset. cbn.
    rewrite !append_assoc. reflexivity. }
  destruct (decide (Logging.levelno r = 40)) as [E|N40].
  { rewrite E. right; right; right; left. split; [reflexivity|].
    unfold line, reset. cbn. rewrite !append_assoc. reflexivity. }
  destruct (decide (Logging.levelno r = 50)) as [E|N50].
  { rewrite E. right; right; right; right. split; [reflexivity|].
    unfold line, reset. cbn. rewrite !append_assoc. reflexivity. }
  unfold Logging.FORMATS.
  rewrite !lookup_insert_ne by congruence. rewrite lookup_empty.
  split; [reflexivity|]. rewrite !elem_of_cons, elem_of_nil. tauto.
Qed.

(** ** Extensions *)

Lemma splitext_rejoin p :
  (PosixPath.splitext p).1 +:+ (PosixPath.splitext p).2 = p.
Proof.
  unfold PosixPath.splitext, PyStr.slice_to, PyStr.slice_from.
  destruct (_ && _); cbn [fst snd]; [apply take_drop | apply append_empty_r].
Qed.

(** X14. [os.path.splitext] cuts the path in two: the parts put together
    give the path back, and the extension is empty or is a dot followed by
    characters among which there is neither a dot nor a path separator. *)
Theorem splitext_cuts_at_the_last_dot p :
  (PosixPath.splitext p).1 +:+ (PosixPath.splitext p).2 = p
  ∧ ((PosixPath.splitext p).2 = ""
     ∨ ∃ rest, (PosixPath.splitext p).2 = String "." rest
               ∧ contains rest "." = false ∧ contains rest "/" = false).
Proof.
  unfold PosixPath.splitext, PyStr.rfind, PyStr.slice_to, PyStr.slice_from.
  pose proof (rfind_from_spec PosixPath.extsep p 0 (-1)) as Sd.
  pose proof (rfind_from_spec PosixPath.sep p 0 (-1)) as Ss.
  set (sepIndex := PyStr.rfind_from PosixPath.sep p 0 (-1)) in *.
  set (dotIndex := PyStr.rfind_from PosixPath.extsep p 0 (-1)) in *.
  destruct ((sepIndex <? dotIndex) && negb _) eqn:C; cbn [fst snd].
  - apply andb_prop in C as [C _]. apply Z.ltb_lt in C.
    split; [apply take_drop|]. right.
    destruct Sd as [[_ E]|(B & rest & D & Hr)].
    { destruct Ss as [[_ E']|(B' & _)]; lia. }
    rewrite Z.sub_0_r in D. exists rest. split; [exact D|]. split; [exact Hr|].
    destruct Ss as [[Hn _]|(B' & rest' & D' & Hr')].
    + apply (contains_drop (Z.to_nat dotIndex)) in Hn. rewrite D in Hn.
      cbn [contains] in Hn. apply orb_false_elim in Hn. tauto.
    + rewrite Z.sub_0_r in D'.
      assert (Hd : PyStr.drop (Z.to_nat dotIndex - Z.to_nat sepIndex)
                     (PyStr.drop (Z.to_nat sepIndex) p) = String "." rest).
      { rewrite drop_drop.
        replace (Z.to_nat sepIndex + (Z.to_nat dotIndex - Z.to_nat sepIndex))%nat
          with (Z.to_nat dotIndex) by lia. exact D. }
      rewrite D' in Hd.
      destruct (Z.to_nat dotIndex - Z.to_nat sepIndex)%nat as [|k] eqn:K; [lia|].
      cbn [PyStr.drop] in Hd.
      apply (contains_drop k) in Hr'. rewrite Hd in Hr'.
      cbn [contains] in Hr'. apply orb_false_elim in Hr'. tauto.
  - split; [apply append_empty_r | left; reflexivity].
Qed.

(** X15. A file whose name is a dot followed by text without further dots,
    such as [.jpg] or [.cr2], has no extension for [os.path.splitext] and
    is treated as unsupported, in whatever folder it lies. *)
Theorem hidden_files_are_unsupported dir name :
  contains name "." = false → contains name "/" = false →
  (PosixPath.splitext (dir +:+ "/." +:+ name)).2 = ""
  ∧ classify_path (dir +:+ "/." +:+ name) = Unsupported.
Proof.
  intros Hdot Hsep.
  assert (E : (PosixPath.splitext (dir +:+ "/." +:+ name)).2 = "").
  { unfold PosixPath.splitext, PyStr.rfind.
    change ("/." +:+ name) with (String "/" (String "." name)).
    rewrite !rfind_from_append. cbn [PyStr.rfind_from Ascii.eqb Bool.eqb PosixPath.sep PosixPath.extsep].
    rewrite (rfind_from_absent "/" name) by exact Hsep.
    rewrite (rfind_from_absent "." name) by exact Hdot.
    set (n := Z.of_nat (String.length dir)).
    assert (Hn : (0 + n <? 0 + n + 1) = true) by (apply Z.ltb_lt; lia).
    rewrite Hn. unfold PyStr.slice.
    replace (Z.to_nat (0 + n + 1 - (0 + n + 1))) with 0%nat by lia.
    reflexivity. }
  split; [exact E|]. unfold classify_path. rewrite E. reflexivity.
Qed.

Lemma hidden_files_are_unsupported_witness :
  contains "jpg" "." = false ∧ contains "jpg" "/" = false
  ∧ (PosixPath.splitext ("/photos/inbox" +:+ "/." +:+ "jpg")).2 = ""
  ∧ classify_path ("/photos/inbox" +:+ "/." +:+ "jpg") = Unsupported.
Proof.
  split; [reflexivity|]. split; [reflexivity|].
  exact (hidden_files_are_unsupported "/photos/inbox" "jpg" eq_refl eq_refl).
Defined.

(** X16. A file is treated as a photo only if its path ends with one of the
    photo extensions, in any letter case: the path is some text followed by
    an extension whose lowercase form is in the list. *)
Theorem photos_end_with_a_photo_extension pic :
  is_photo (classify_path pic) = true →
  ∃ root ext, pic = root +:+ ext ∧ PyStr.lower ext ∈ valid_extensions.
Proof.
  intros H. exists (PosixPath.splitext pic).1, (PosixPath.splitext pic).2.
  split; [symmetry; apply splitext_rejoin|].
  unfold classify_path in H.
  destruct (classify_cases (PyStr.lower (PosixPath.splitext pic).2))
    as [[H1 C]|[(H1 & H2 & C)|[(H1 & H2 & C)|[H1 C]]]];
    rewrite C in H; try discriminate; apply elem_of_valid_extensions; tauto.
Qed.

Lemma photos_end_with_a_photo_extension_witness :
  is_photo (classify_path "/photos/inbox/2023/IMG_0042.JPeG") = true
  ∧ ∃ root ext, "/photos/inbox/2023/IMG_0042.JPeG" = root +:+ ext
                ∧ PyStr.lower ext ∈ valid_extensions.
Proof.
  split; [reflexivity|].
  exact (photos_end_with_a_photo_extension "/photos/inbox/2023/IMG_0042.JPeG" eq_refl).
Defined.
